(** * Tutor chat front end: answer sanitizer, course coordinator, ask and upload flows

    A shallow embedding of the chat page ([normalizeMath],
    [sanitizeInlineCitations], [labelFromCourse], [loadCourses],
    [createCourse], [ask], [hydrateLabel]) and of the notes uploader
    ([onUpload]), followed by the properties proved about them.

    JavaScript strings are sequences of UTF-16 code units; regular
    expressions without the [u] flag work on code units as well, so a string
    is modelled as [list N].  The handlers of the page are asynchronous: each
    one is split at its [await fetch(...)] into the part that runs when the
    handler is called and the part that runs when the response arrives. *)

From Stdlib Require Import String Ascii DecimalString Floats.
From Stdlib Require Import NArith Bool Arith Lia List.
Import ListNotations.

Set Implicit Arguments.

(* ================================================================== *)
(** * JavaScript strings *)
(* ================================================================== *)

Module Js.

(** One UTF-16 code unit. *)
Definition char := N.
Definition jsstring := list char.

(** The code unit of an ASCII character, and an ASCII literal as a string. *)
Definition ch (a : ascii) : char := N_of_ascii a.
Definition lit (s : string) : jsstring := map N_of_ascii (list_ascii_of_string s).

(** U+2014 EM DASH, the one non ASCII character of the page's templates. *)
Definition emdash : char := 8212%N.

(** [!s] for a string. *)
Definition isEmpty (s : jsstring) : bool :=
  match s with [] => true | _ :: _ => false end.

(** [a || b] for strings. *)
Definition orElse (a b : jsstring) : jsstring :=
  if isEmpty a then b else a.

(** [s.startsWith(p)] *)
Fixpoint startsWith (s p : jsstring) {struct p} : bool :=
  match p with
  | [] => true
  | a :: p' =>
      match s with
      | [] => false
      | c :: s' => N.eqb c a && startsWith s' p'
      end
  end.

(** [s.endsWith(p)] *)
Definition endsWith (s p : jsstring) : bool := startsWith (rev s) (rev p).

(** [s.includes(p)] *)
Fixpoint includes (s p : jsstring) : bool :=
  startsWith s p ||
  match s with
  | [] => false
  | _ :: s' => includes s' p
  end.

(** [a === b] on strings. *)
Fixpoint eqb (a b : jsstring) : bool :=
  match a, b with
  | [], [] => true
  | x :: a', y :: b' => N.eqb x y && eqb a' b'
  | _, _ => false
  end.

(** ECMAScript WhiteSpace and LineTerminator code points, the characters
    [trim] strips: TAB, LF, VT, FF, CR, SP, NBSP, U+1680, U+2000..U+200A,
    LS, PS, U+202F, U+205F, U+3000 and U+FEFF. *)
Definition isWhiteSpace (c : char) : bool :=
  ((9 <=? c) && (c <=? 13) || (c =? 32) || (c =? 160) || (c =? 5760)
   || (8192 <=? c) && (c <=? 8202) || (c =? 8232) || (c =? 8233)
   || (c =? 8239) || (c =? 8287) || (c =? 12288) || (c =? 65279))%N.

Fixpoint trimStart (s : jsstring) : jsstring :=
  match s with
  | [] => []
  | c :: s' => if isWhiteSpace c then trimStart s' else s
  end.

Definition trimEnd (s : jsstring) : jsstring := rev (trimStart (rev s)).

(** [s.trim()] *)
Definition trim (s : jsstring) : jsstring := trimEnd (trimStart s).

(** A non negative integer in a template literal: [`${n}`]. *)
Definition ofN (n : N) : jsstring := lit (NilZero.string_of_uint (N.to_uint n)).

(** [term?: string | null]: an optional, nullable string property. *)
Inductive maybe_string :=
| Undefined
| Null
| Str (s : jsstring).

(** Truthiness of such a property: only a non empty string is truthy. *)
Definition truthy (m : maybe_string) : bool :=
  match m with
  | Str (_ :: _) => true
  | _ => false
  end.

(** [`${m}`] for a truthy property. *)
Definition text (m : maybe_string) : jsstring :=
  match m with
  | Str s => s
  | Null => lit "null"
  | Undefined => lit "undefined"
  end.

End Js.
Import Js.

(* ================================================================== *)
(** * Regular expressions *)
(* ================================================================== *)

(** The fragment of the regular expression language used by the page:
    literal characters, character classes, greedy [*] and [+] over a single
    character, capturing groups that are not nested, and [|] at top level.
    Matching is the backtracking search of the language, so the first
    alternative and the longest repetition are tried first. *)

Module RegExp.

Inductive class_item :=
| CChar (c : char)
| CRange (lo hi : char).

Inductive atom :=
| Chr (c : char)                               (* [c], also escaped: [\\c] *)
| Class (negated : bool) (items : list class_item).   (* [[...]] and [[^...]] *)

Inductive item :=
| One (a : atom)
| Star (a : atom)          (* a*  *)
| Plus (a : atom)          (* a+  *)
| GroupOpen                (* (   *)
| GroupClose.              (* )   *)

Definition alternative := list item.
Definition regex := list alternative.

Definition in_item (c : char) (i : class_item) : bool :=
  match i with
  | CChar d => N.eqb c d
  | CRange lo hi => (N.leb lo c) && (N.leb c hi)
  end.

Definition accepts (a : atom) (c : char) : bool :=
  match a with
  | Chr d => N.eqb c d
  | Class negated items => xorb negated (existsb (in_item c) items)
  end.

(** Result of a match attempt at a position: the number of code units
    consumed and the captures. *)
Definition result := option (nat * list jsstring).

Definition consume (r : result) : result :=
  match r with
  | Some (n, caps) => Some (S n, caps)
  | None => None
  end.

(** Greedy repetition of [a] followed by the continuation [k]: take one
    more character when possible, and give it back when the rest fails. *)
Fixpoint greedy (a : atom) (k : jsstring -> result) (s : jsstring) : result :=
  match s with
  | c :: s' =>
      if accepts a c then
        match greedy a k s' with
        | Some r => consume (Some r)
        | None => k s
        end
      else k s
  | [] => k s
  end.

(** The text of a group that was opened at suffix [opened] when the match
    has reached suffix [s]. *)
Definition captured (opened : option jsstring) (s : jsstring) : jsstring :=
  match opened with
  | Some o => firstn (length o - length s) o
  | None => []
  end.

Fixpoint matchItems (p : alternative) (opened : option jsstring)
         (caps : list jsstring) (s : jsstring) {struct p} : result :=
  match p with
  | [] => Some (0, caps)
  | One a :: p' =>
      match s with
      | c :: s' =>
          if accepts a c then consume (matchItems p' opened caps s') else None
      | [] => None
      end
  | Star a :: p' => greedy a (matchItems p' opened caps) s
  | Plus a :: p' =>
      match s with
      | c :: s' =>
          if accepts a c
          then consume (greedy a (matchItems p' opened caps) s')
          else None
      | [] => None
      end
  | GroupOpen :: p' => matchItems p' (Some s) caps s
  | GroupClose :: p' => matchItems p' None (caps ++ [captured opened s]) s
  end.

(** The least number of characters a sequence of items consumes. *)
Fixpoint minLength (p : alternative) : nat :=
  match p with
  | [] => 0
  | (One _ | Plus _) :: p' => S (minLength p')
  | (Star _ | GroupOpen | GroupClose) :: p' => minLength p'
  end.

(** Is a sequence of items without group marks. *)
Definition groupFree (p : alternative) : bool :=
  forallb (fun i => match i with GroupOpen | GroupClose => false | _ => true end) p.

(** A match attempt of the whole expression at the start of [s]. *)
Fixpoint matchAt (re : regex) (s : jsstring) : result :=
  match re with
  | [] => None
  | p :: alts =>
      match matchItems p None [] s with
      | Some r => Some r
      | None => matchAt alts s
      end
  end.

(** [re.test(s)] for an expression without the [g] flag: is there a
    position where it matches. *)
Fixpoint test (re : regex) (s : jsstring) : bool :=
  match matchAt re s with
  | Some _ => true
  | None =>
      match s with
      | [] => false
      | _ :: s' => test re s'
      end
  end.

(** One match found by a global search: the matched text, the captures, and
    the text before and after the match. *)
Record hit := Hit_ {
  matched : jsstring;
  captures : list jsstring;
  before : jsstring;
  after : jsstring
}.

Inductive segment :=
| Keep (c : char)
| Hit (h : hit).

(** The global search behind [replace] with the [g] flag: the matches from
    left to right, without overlap, and the characters between them.  After
    an empty match the search moves on by one character.  [skip] counts the
    characters of the current match still to pass, [pre] is the text
    already passed. *)
Fixpoint scan (re : regex) (skip : nat) (pre : jsstring) (s : jsstring)
  {struct s} : list segment :=
  match s with
  | [] =>
      match skip with
      | O =>
          match matchAt re [] with
          | Some (_, caps) =>
              [Hit {| matched := []; captures := caps; before := pre; after := [] |}]
          | None => []
          end
      | S _ => []
      end
  | c :: s' =>
      match skip with
      | S k => scan re k (pre ++ [c]) s'
      | O =>
          match matchAt re s with
          | Some (n, caps) =>
              Hit {| matched := firstn n s; captures := caps;
                     before := pre; after := skipn n s |}
              :: match n with
                 | O => Keep c :: scan re 0 (pre ++ [c]) s'
                 | S k => scan re k (pre ++ [c]) s'
                 end
          | None => Keep c :: scan re 0 (pre ++ [c]) s'
          end
      end
  end.

Definition isDigit (c : char) : bool := (N.leb 48 c) && (N.leb c 57).
Definition digitValue (c : char) : nat := N.to_nat (c - 48).

(** The replacement for [$n]: capture [index] when there is one, the
    reference itself otherwise. *)
Definition captureRef (ref : jsstring) (index : nat) (caps : list jsstring)
  : jsstring :=
  if (1 <=? index) && (index <=? length caps)
  then nth (index - 1) caps []
  else ref.

(** GetSubstitution: the expansion of a replacement template for one
    match.  [$$] is a dollar sign, [$&] the match, [$`] and [$'] the text
    before and after it, [$n] and [$nn] a capture; there are no named
    groups, so [$<] stands for itself, as does every other character. *)
Fixpoint getSubstitution (h : hit) (template : jsstring) {struct template}
  : jsstring :=
  match template with
  | [] => []
  | c :: t1 =>
      if negb (N.eqb c (ch "$")) then c :: getSubstitution h t1
      else
        match t1 with
        | [] => [c]
        | d :: t2 =>
            if N.eqb d (ch "$") then ch "$" :: getSubstitution h t2
            else if N.eqb d (ch "`") then before h ++ getSubstitution h t2
            else if N.eqb d (ch "&") then matched h ++ getSubstitution h t2
            else if N.eqb d (ch "'") then after h ++ getSubstitution h t2
            else if isDigit d then
              let m := length (captures h) in
              match t2 with
              | e :: t3 =>
                  if isDigit e && (10 * digitValue d + digitValue e <=? m)
                  then captureRef [c; d; e] (10 * digitValue d + digitValue e)
                         (captures h) ++ getSubstitution h t3
                  else captureRef [c; d] (digitValue d) (captures h)
                         ++ getSubstitution h t2
              | [] => captureRef [c; d] (digitValue d) (captures h)
              end
            else c :: getSubstitution h t1
        end
  end.

(** The text that stands for one segment of a search when every match [h]
    is replaced by [g h]. *)
Definition render (g : hit -> jsstring) (seg : segment) : jsstring :=
  match seg with
  | Keep c => [c]
  | Hit h => g h
  end.

(** [s.replace(re, template)] for a global expression. *)
Definition replace (re : regex) (template : jsstring) (s : jsstring) : jsstring :=
  flat_map (render (fun h => getSubstitution h template)) (scan re 0 [] s).

(** [s.replace(re, f)] for a global expression, with a replacer that looks
    at the matched text only. *)
Definition replaceWith (re : regex) (f : jsstring -> jsstring) (s : jsstring)
  : jsstring :=
  flat_map (render (fun h => f (matched h))) (scan re 0 [] s).

(** [s.match(re)] for a global expression: the matched texts. *)
Definition matchAll (re : regex) (s : jsstring) : list jsstring :=
  flat_map (fun seg =>
              match seg with
              | Keep _ => []
              | Hit h => [matched h]
              end) (scan re 0 [] s).

End RegExp.
Import RegExp.

(* ================================================================== *)
(** * Answer sanitizer *)
(* ================================================================== *)

(** [/\\\[|\\\]|\\\(|\\\)/] *)
Definition re_legacy : regex :=
  [ [One (Chr (ch "\")); One (Chr (ch "["))];
    [One (Chr (ch "\")); One (Chr (ch "]"))];
    [One (Chr (ch "\")); One (Chr (ch "("))];
    [One (Chr (ch "\")); One (Chr (ch ")"))] ].

(** [/\\\[/g], [/\\\]/g], [/\\\(/g] and [/\\\)/g] *)
Definition re_display_open : regex := [[One (Chr (ch "\")); One (Chr (ch "["))]].
Definition re_display_close : regex := [[One (Chr (ch "\")); One (Chr (ch "]"))]].
Definition re_inline_open : regex := [[One (Chr (ch "\")); One (Chr (ch "("))]].
Definition re_inline_close : regex := [[One (Chr (ch "\")); One (Chr (ch ")"))]].

(** [/\\text\{[^}]*\}/g] *)
Definition re_text : regex :=
  [[One (Chr (ch "\")); One (Chr (ch "t")); One (Chr (ch "e"));
    One (Chr (ch "x")); One (Chr (ch "t")); One (Chr (ch "{"));
    Star (Class true [CChar (ch "}")]); One (Chr (ch "}"))]].

(** [/\[([0-9]+)\]\([^)]+\)/g] *)
Definition re_cite : regex :=
  [[One (Chr (ch "[")); GroupOpen; Plus (Class false [CRange (ch "0") (ch "9")]);
    GroupClose; One (Chr (ch "]")); One (Chr (ch "("));
    Plus (Class true [CChar (ch ")")]); One (Chr (ch ")"))]].

Definition USE_MATH_NORMALIZER : bool := true.

Definition normalizeMath (s : jsstring) : jsstring :=
  if isEmpty s then s
  else if negb (test re_legacy s) then s
  else
    replace re_inline_close (lit "$")
      (replace re_inline_open (lit "$")
         (replace re_display_close (lit "$$")
            (replace re_display_open (lit "$$") s))).

Definition sanitizeInlineCitations (s : jsstring) : jsstring :=
  replaceWith re_text (fun block => replace re_cite (lit "[$1]") block)
    (orElse s []).

(** The two steps as [ask] chains them on the answer text. *)
Definition sanitize (raw : jsstring) : jsstring :=
  let withMath := if USE_MATH_NORMALIZER then normalizeMath raw else raw in
  sanitizeInlineCitations withMath.


(* ================================================================== *)
(** * Data model *)
(* ================================================================== *)

(** A JSON value, for the metadata record that the page stores without
    looking inside. *)
Unset Elimination Schemes.
Inductive json :=
| JNull
| JBool (b : bool)
| JNum (x : float)
| JStr (s : jsstring)
| JArr (items : list json)
| JObj (fields : list (jsstring * json)).
Set Elimination Schemes.

(** Truthiness of a JSON value. *)
Definition truthy_json (v : json) : bool :=
  match v with
  | JNull => false
  | JBool b => b
  | JNum x => negb (PrimFloat.eqb x 0%float || PrimFloat.is_nan x)
  | JStr s => negb (isEmpty s)
  | JArr _ | JObj _ => true
  end.

(** [number | null] properties that may be missing. *)
Inductive maybe_number :=
| NoNumber
| NullNumber
| Num (x : float).

Record Source := {
  marker : jsstring;
  title : maybe_string;
  url : maybe_string;
  page : maybe_number;
  score : maybe_number;
  is_image : option bool
}.

Record Course := {
  id : jsstring;
  name : jsstring;
  term : maybe_string
}.

(** The body of a successful [/chat/ask] response. *)
Module Payload.
Record t := {
  answer : maybe_string;
  sources_dedup : option (list Source);
  sources : option (list Source);
  meta : option json
}.
End Payload.

Definition labelFromCourse (c : option Course) : jsstring :=
  match c with
  | None => []
  | Some c =>
      if truthy (term c)
      then name c ++ lit " " ++ [emdash] ++ lit " " ++ text (term c)
      else name c
  end.

(* ================================================================== *)
(** * Requests, responses and effects *)
(* ================================================================== *)

Inductive http_method := GET | POST.

Record File := {
  file_name : jsstring;      (* file.name *)
  file_type : jsstring;      (* file.type *)
  file_size : N              (* file.size *)
}.

Inductive form_value :=
| FormText (s : jsstring)
| FormFile (f : File).

(** A request body: none, [JSON.stringify] of an object of strings, or a
    [FormData]. *)
Inductive request_body :=
| NoBody
| JSON_stringify (fields : list (jsstring * jsstring))
| FormData (fields : list (jsstring * form_value)).

Record request := {
  req_url : jsstring;
  req_method : http_method;
  req_headers : list (jsstring * jsstring);
  req_body : request_body
}.

(** A thrown [Error]. *)
Record js_error := {
  error_name : jsstring;
  error_message : jsstring
}.

(** [new Error(message)] *)
Definition Error (message : jsstring) : js_error :=
  {| error_name := lit "Error"; error_message := message |}.

(** [`${e}`]: Error.prototype.toString. *)
Definition errorToString (e : js_error) : jsstring :=
  if isEmpty (error_name e) then error_message e
  else if isEmpty (error_message e) then error_name e
  else error_name e ++ lit ": " ++ error_message e.

(** How a promise settles. *)
Inductive settled (A : Type) :=
| Fulfilled (a : A)
| RejectedWith (e : js_error).
Arguments Fulfilled {A} a.
Arguments RejectedWith {A} e.

(** A response whose body, read as JSON, has type [A]. *)
Record response (A : Type) := {
  status : N;
  res_text : settled jsstring;      (* await res.text() *)
  res_json : settled A              (* await res.json() *)
}.

(** [res.ok] *)
Definition ok {A} (res : response A) : bool :=
  (N.leb 200 (status res)) && (N.leb (status res) 299).

(** What [await fetch(...)] gives. *)
Definition fetched (A : Type) := settled (response A).

Inductive effect :=
| Fetch (r : request)
| Alert (message : jsstring)
| Warn (label : jsstring) (detail : jsstring + js_error).

(** A run of state setters and effects, in order. *)
Definition action (S : Type) := S -> S * list effect.

Definition skip {S} : action S := fun st => (st, []).

Definition emit {S} (e : effect) : action S := fun st => (st, [e]).

Definition andThen {S} (a b : action S) : action S := fun st =>
  let (s1, e1) := a st in
  let (s2, e2) := b s1 in
  (s2, e1 ++ e2).

Notation "a ;; b" := (andThen a b) (at level 61, right associativity).

(** The requests among the effects. *)
Definition requests (es : list effect) : list request :=
  flat_map (fun e => match e with Fetch r => [r] | _ => [] end) es.

(** The alerts among the effects. *)
Definition alerts (es : list effect) : list jsstring :=
  flat_map (fun e => match e with Alert m => [m] | _ => [] end) es.

(* ================================================================== *)
(** * The chat page *)
(* ================================================================== *)

(** The state hooks of [ChatPage]. *)
Record PageState := {
  q : jsstring;
  courseId : jsstring;
  answer : jsstring;
  sources : list Source;
  meta : json;
  loading : bool;
  err : option jsstring;
  courseLabel : jsstring;
  userId : jsstring;
  courses : list Course;
  loadingCourses : bool;
  creating : bool;
  newName : jsstring;
  newTerm : jsstring
}.

Definition setQ (v : jsstring) : action PageState := fun st =>
  ({| q := v; courseId := courseId st; answer := answer st;
     sources := sources st; meta := meta st; loading := loading st;
     err := err st; courseLabel := courseLabel st; userId := userId st;
     courses := courses st; loadingCourses := loadingCourses st;
     creating := creating st; newName := newName st;
     newTerm := newTerm st |}, []).

Definition setCourseId (v : jsstring) : action PageState := fun st =>
  ({| q := q st; courseId := v; answer := answer st; sources := sources st;
     meta := meta st; loading := loading st; err := err st;
     courseLabel := courseLabel st; userId := userId st;
     courses := courses st; loadingCourses := loadingCourses st;
     creating := creating st; newName := newName st;
     newTerm := newTerm st |}, []).

Definition setAnswer (v : jsstring) : action PageState := fun st =>
  ({| q := q st; courseId := courseId st; answer := v; sources := sources st;
     meta := meta st; loading := loading st; err := err st;
     courseLabel := courseLabel st; userId := userId st;
     courses := courses st; loadingCourses := loadingCourses st;
     creating := creating st; newName := newName st;
     newTerm := newTerm st |}, []).

Definition setSources (v : list Source) : action PageState := fun st =>
  ({| q := q st; courseId := courseId st; answer := answer st; sources := v;
     meta := meta st; loading := loading st; err := err st;
     courseLabel := courseLabel st; userId := userId st;
     courses := courses st; loadingCourses := loadingCourses st;
     creating := creating st; newName := newName st;
     newTerm := newTerm st |}, []).

Definition setMeta (v : json) : action PageState := fun st =>
  ({| q := q st; courseId := courseId st; answer := answer st;
     sources := sources st; meta := v; loading := loading st; err := err st;
     courseLabel := courseLabel st; userId := userId st;
     courses := courses st; loadingCourses := loadingCourses st;
     creating := creating st; newName := newName st;
     newTerm := newTerm st |}, []).

Definition setLoading (v : bool) : action PageState := fun st =>
  ({| q := q st; courseId := courseId st; answer := answer st;
     sources := sources st; meta := meta st; loading := v; err := err st;
     courseLabel := courseLabel st; userId := userId st;
     courses := courses st; loadingCourses := loadingCourses st;
     creating := creating st; newName := newName st;
     newTerm := newTerm st |}, []).

Definition setErr (v : option jsstring) : action PageState := fun st =>
  ({| q := q st; courseId := courseId st; answer := answer st;
     sources := sources st; meta := meta st; loading := loading st; err := v;
     courseLabel := courseLabel st; userId := userId st;
     courses := courses st; loadingCourses := loadingCourses st;
     creating := creating st; newName := newName st;
     newTerm := newTerm st |}, []).

Definition setCourseLabel (v : jsstring) : action PageState := fun st =>
  ({| q := q st; courseId := courseId st; answer := answer st;
     sources := sources st; meta := meta st; loading := loading st;
     err := err st; courseLabel := v; userId := userId st;
     courses := courses st; loadingCourses := loadingCourses st;
     creating := creating st; newName := newName st;
     newTerm := newTerm st |}, []).

Definition setUserId (v : jsstring) : action PageState := fun st =>
  ({| q := q st; courseId := courseId st; answer := answer st;
     sources := sources st; meta := meta st; loading := loading st;
     err := err st; courseLabel := courseLabel st; userId := v;
     courses := courses st; loadingCourses := loadingCourses st;
     creating := creating st; newName := newName st;
     newTerm := newTerm st |}, []).

Definition setCourses (v : list Course) : action PageState := fun st =>
  ({| q := q st; courseId := courseId st; answer := answer st;
     sources := sources st; meta := meta st; loading := loading st;
     err := err st; courseLabel := courseLabel st; userId := userId st;
     courses := v; loadingCourses := loadingCourses st;
     creating := creating st; newName := newName st;
     newTerm := newTerm st |}, []).

Definition setLoadingCourses (v : bool) : action PageState := fun st =>
  ({| q := q st; courseId := courseId st; answer := answer st;
     sources := sources st; meta := meta st; loading := loading st;
     err := err st; courseLabel := courseLabel st; userId := userId st;
     courses := courses st; loadingCourses := v; creating := creating st;
     newName := newName st; newTerm := newTerm st |}, []).

Definition setCreating (v : bool) : action PageState := fun st =>
  ({| q := q st; courseId := courseId st; answer := answer st;
     sources := sources st; meta := meta st; loading := loading st;
     err := err st; courseLabel := courseLabel st; userId := userId st;
     courses := courses st; loadingCourses := loadingCourses st;
     creating := v; newName := newName st; newTerm := newTerm st |}, []).

Definition setNewName (v : jsstring) : action PageState := fun st =>
  ({| q := q st; courseId := courseId st; answer := answer st;
     sources := sources st; meta := meta st; loading := loading st;
     err := err st; courseLabel := courseLabel st; userId := userId st;
     courses := courses st; loadingCourses := loadingCourses st;
     creating := creating st; newName := v; newTerm := newTerm st |}, []).

Definition setNewTerm (v : jsstring) : action PageState := fun st =>
  ({| q := q st; courseId := courseId st; answer := answer st;
     sources := sources st; meta := meta st; loading := loading st;
     err := err st; courseLabel := courseLabel st; userId := userId st;
     courses := courses st; loadingCourses := loadingCourses st;
     creating := creating st; newName := newName st; newTerm := v |}, []).

(** [setCourses(prev => ...)] *)
Definition updateCourses (f : list Course -> list Course) : action PageState :=
  fun st => setCourses (f (courses st)) st.

(** [rows.find((c) => c.id === courseId)] *)
Definition findCourse (rows : list Course) (courseId : jsstring) : option Course :=
  find (fun c => Js.eqb (id c) courseId) rows.

Section ChatPage.

(** [const API = process.env.NEXT_PUBLIC_API_BASE || 'http://localhost:8001'] *)
Variable API : jsstring.

(** ** [loadCourses] *)

(** [console.warn('Failed to load courses:', e.message || e)] *)
Definition warnLoadFailed (e : js_error) : effect :=
  Warn (lit "Failed to load courses:")
       (if isEmpty (error_message e) then inr e else inl (error_message e)).

(** Up to [await fetch(`${API}/courses`, ...)].  [cl] holds the values the
    handler sees: the state of the render it was created in. *)
Definition loadCourses_begin (cl : PageState) : action PageState :=
  if isEmpty (userId cl) then skip
  else
    setLoadingCourses true ;;
    emit (Fetch {| req_url := API ++ lit "/courses";
                   req_method := GET;
                   req_headers := [(lit "X-User-Id", userId cl)];
                   req_body := NoBody |}).

(** The [catch] block of [loadCourses]. *)
Definition loadCourses_catch (e : js_error) : action PageState :=
  emit (warnLoadFailed e) ;; setCourses [].

(** From the arrival of the response to the end of [finally]. *)
Definition loadCourses_settle (cl : PageState) (out : fetched (list Course))
  : action PageState :=
  match out with
  | RejectedWith e => loadCourses_catch e
  | Fulfilled res =>
      if negb (ok res) then
        match res_text res with
        | Fulfilled txt => loadCourses_catch (Error txt)
        | RejectedWith e => loadCourses_catch e
        end
      else
        match res_json res with
        | RejectedWith e => loadCourses_catch e
        | Fulfilled rows =>
            setCourses rows ;;
            match findCourse rows (courseId cl) with
            | Some _ => skip
            | None =>
                match rows with
                | first :: _ => setCourseId (id first)
                | [] => skip
                end
            end
        end
  end ;;
  setLoadingCourses false.

(** ** [createCourse] *)

Definition createCourse_begin (cl : PageState) : action PageState :=
  if isEmpty (userId cl) then
    emit (Alert (lit "Please set your User ID (UUID) in the sidebar."))
  else if isEmpty (trim (newName cl)) then skip
  else
    setCreating true ;;
    emit (Fetch {| req_url := API ++ lit "/courses";
                   req_method := POST;
                   req_headers := [(lit "Content-Type", lit "application/json");
                                   (lit "X-User-Id", userId cl)];
                   req_body := JSON_stringify
                                 [(lit "name", trim (newName cl));
                                  (lit "term", orElse (newTerm cl) [])] |}).

(** [alert(`Create failed: ${e.message || e}`)] *)
Definition createCourse_catch (e : js_error) : action PageState :=
  emit (Alert (lit "Create failed: " ++
               (if isEmpty (error_message e) then errorToString e
                else error_message e))).

Definition createCourse_settle (out : fetched Course) : action PageState :=
  match out with
  | RejectedWith e => createCourse_catch e
  | Fulfilled res =>
      if negb (ok res) then
        match res_text res with
        | Fulfilled txt => createCourse_catch (Error txt)
        | RejectedWith e => createCourse_catch e
        end
      else
        match res_json res with
        | RejectedWith e => createCourse_catch e
        | Fulfilled row =>
            updateCourses (fun prev =>
                             match findCourse prev (id row) with
                             | Some _ => prev
                             | None => row :: prev
                             end) ;;
            setCourseId (id row) ;;
            setNewName [] ;;
            setNewTerm []
        end
  end ;;
  setCreating false.

(** ** [ask] *)

Definition ask_begin (cl : PageState) : action PageState :=
  if isEmpty (trim (q cl)) then skip
  else if isEmpty (userId cl) then setErr (Some (lit "No user id set"))
  else if isEmpty (courseId cl) then
    setErr (Some (lit "No course selected. Create or pick a course on the left."))
  else
    setLoading true ;;
    setErr None ;;
    setAnswer [] ;;
    setSources [] ;;
    setMeta JNull ;;
    emit (Fetch {| req_url := API ++ lit "/chat/ask";
                   req_method := POST;
                   req_headers := [(lit "Content-Type", lit "application/json");
                                   (lit "X-User-Id", userId cl)];
                   req_body := JSON_stringify
                                 [(lit "course_id", courseId cl);
                                  (lit "question", q cl);
                                  (lit "assistance_level", lit "novice");
                                  (lit "mode", lit "worked")] |}).

(** [setErr(e.message || 'Request failed')] *)
Definition ask_catch (e : js_error) : action PageState :=
  setErr (Some (orElse (error_message e) (lit "Request failed"))).

Definition ask_settle (out : fetched Payload.t) : action PageState :=
  match out with
  | RejectedWith e => ask_catch e
  | Fulfilled res =>
      if negb (ok res) then
        let txt := match res_text res with
                   | Fulfilled t => t
                   | RejectedWith _ => []
                   end in
        ask_catch (Error (orElse txt (lit "HTTP " ++ ofN (status res))))
      else
        match res_json res with
        | RejectedWith e => ask_catch e
        | Fulfilled data =>
            let raw := if truthy (Payload.answer data)
                       then text (Payload.answer data) else [] in
            let withMath := if USE_MATH_NORMALIZER then normalizeMath raw else raw in
            let cleaned := sanitizeInlineCitations withMath in
            setAnswer cleaned ;;
            setSources (match Payload.sources_dedup data with
                        | Some l => l
                        | None =>
                            match Payload.sources data with
                            | Some l => l
                            | None => []
                            end
                        end) ;;
            setMeta (match Payload.meta data with
                     | Some m => if truthy_json m then m else JNull
                     | None => JNull
                     end)
        end
  end ;;
  setLoading false.

(** ** [hydrateLabel] *)

(** The label effect runs [hydrateLabel] right after [let cancelled = false],
    so the part before the [await] sees [cancelled] false. *)
Definition hydrateLabel_begin (cl : PageState) : action PageState :=
  let cancelled := false in
  if isEmpty (courseId cl) then setCourseLabel []
  else
    match findCourse (courses cl) (courseId cl) with
    | Some local =>
        if negb cancelled then setCourseLabel (labelFromCourse (Some local))
        else skip
    | None =>
        emit (Fetch {| req_url := API ++ lit "/courses/" ++ courseId cl;
                       req_method := GET;
                       req_headers := [(lit "X-User-Id", userId cl)];
                       req_body := NoBody |})
    end.

(** After the [await]: [cancelled] is true when the effect was cleaned up
    in the meantime. *)
Definition hydrateLabel_settle (cancelled : bool) (out : fetched Course)
  : action PageState :=
  let unknown : action PageState :=
    if negb cancelled then setCourseLabel (lit "(unknown course)") else skip in
  match out with
  | RejectedWith _ => unknown
  | Fulfilled res =>
      if N.eqb (status res) 403 then
        if negb cancelled then setCourseLabel (lit "(not your course)") else skip
      else if negb (ok res) then unknown
      else
        match res_json res with
        | RejectedWith _ => unknown
        | Fulfilled c =>
            if negb cancelled then setCourseLabel (labelFromCourse (Some c))
            else skip
        end
  end.

End ChatPage.

(* ================================================================== *)
(** * The notes uploader *)
(* ================================================================== *)

Module NotesUploader.

Inductive upload_kind := pdf | image.

(** The state hooks of [NotesUploader]. *)
Record State := {
  open : bool;
  kind : upload_kind;
  file : option File;
  uploading : bool;
  msg : option jsstring;
  err : option jsstring
}.

Definition setOpen (v : bool) : action State := fun st =>
  ({| open := v; kind := kind st; file := file st; uploading := uploading st;
     msg := msg st; err := err st |}, []).

Definition setKind (v : upload_kind) : action State := fun st =>
  ({| open := open st; kind := v; file := file st; uploading := uploading st;
     msg := msg st; err := err st |}, []).

Definition setFile (v : option File) : action State := fun st =>
  ({| open := open st; kind := kind st; file := v; uploading := uploading st;
     msg := msg st; err := err st |}, []).

Definition setUploading (v : bool) : action State := fun st =>
  ({| open := open st; kind := kind st; file := file st; uploading := v;
     msg := msg st; err := err st |}, []).

Definition setMsg (v : option jsstring) : action State := fun st =>
  ({| open := open st; kind := kind st; file := file st;
     uploading := uploading st; msg := v; err := err st |}, []).

Definition setErr (v : option jsstring) : action State := fun st =>
  ({| open := open st; kind := kind st; file := file st;
     uploading := uploading st; msg := msg st; err := v |}, []).

(** The props of the component. *)
Record Props := {
  API : jsstring;
  userId : jsstring;
  courseId : jsstring
}.

(** [100 * 1024 * 1024] *)
Definition MAX_PDF_BYTES : N := (100 * 1024 * 1024)%N.

(** U+2705, the check mark of the success messages. *)
Definition check_mark : char := 9989%N.

Section OnUpload.

(** [String.prototype.toLowerCase], a builtin of the language. *)
Variable toLowerCase : jsstring -> jsstring.

Variable props : Props.

(** The request of an upload: a form with the course and the file, posted
    to the endpoint of the kind. *)
Definition upload_request (endpoint : jsstring) (f : File) : request :=
  {| req_url := API props ++ endpoint;
     req_method := POST;
     req_headers := [(lit "X-User-Id", userId props)];
     req_body := FormData [(lit "course_id", FormText (courseId props));
                           (lit "file", FormFile f)] |}.

(** From [setUploading(true)] to the [fetch]. *)
Definition send (cl : State) (f : File) : action State :=
  setUploading true ;;
  let endpoint := match kind cl with
                  | pdf => lit "/upload/pdf"
                  | image => lit "/upload/image"
                  end in
  emit (Fetch (upload_request endpoint f)).

Definition onUpload_begin (cl : State) : action State :=
  setMsg None ;;
  setErr None ;;
  if isEmpty (userId props) then setErr (Some (lit "Set a user id first."))
  else if isEmpty (courseId props) then
    setErr (Some (lit "Pick or create a course first."))
  else
    match file cl with
    | None => setErr (Some (lit "Choose a file to upload."))
    | Some f =>
        match kind cl with
        | pdf =>
            let name := toLowerCase (file_name f) in
            let isPdf := Js.eqb (file_type f) (lit "application/pdf")
                         || endsWith name (lit ".pdf") in
            if negb isPdf then setErr (Some (lit "Please choose a .pdf file."))
            else if N.ltb MAX_PDF_BYTES (file_size f) then
              setErr (Some (lit "PDF too large (>100MB)."))
            else send cl f
        | image => send cl f
        end
    end.

(** [setErr(e.message || 'Upload failed')] *)
Definition onUpload_catch (e : js_error) : action State :=
  setErr (Some (orElse (error_message e) (lit "Upload failed"))).

Definition onUpload_settle (cl : State) (out : fetched unit) : action State :=
  match out with
  | RejectedWith e => onUpload_catch e
  | Fulfilled res =>
      match res_text res with
      | RejectedWith e => onUpload_catch e
      | Fulfilled txt =>
          if negb (ok res) then
            onUpload_catch (Error (orElse txt (lit "HTTP " ++ ofN (status res))))
          else
            setMsg (Some (match kind cl with
                          | pdf => lit "PDF ingested " ++ [check_mark]
                          | image => lit "Image ingested " ++ [check_mark]
                          end)) ;;
            setFile None
      end
  end ;;
  setUploading false.

End OnUpload.

(** Lower case of the ASCII letters, the part of [toLowerCase] that the
    examples need. *)
Definition asciiLowerCase (s : jsstring) : jsstring :=
  map (fun c => if (N.leb 65 c) && (N.leb c 90) then (c + 32)%N else c) s.

End NotesUploader.

(* ================================================================== *)
(** * Words of the specification *)
(* ================================================================== *)

(** The legacy math delimiters: display open and close, inline open and
    close. *)
Definition legacy_delimiters : list jsstring :=
  [lit "\["; lit "\]"; lit "\("; lit "\)"].

(** Does [s] contain a legacy math delimiter. *)
Definition hasLegacyDelimiter (s : jsstring) : bool :=
  existsb (includes s) legacy_delimiters.

(** Does a [\text{...}] wrapper of [s] hold a link [[integer](url)]. *)
Definition citesInText (s : jsstring) : bool :=
  existsb (test re_cite) (matchAll re_text s).




(** One pass over [s] that writes a dollar sign for every backslash followed
    by [x], from left to right: what one [replace] of [normalizeMath] does. *)
Fixpoint dollarFor (x : char) (s : jsstring) : jsstring :=
  match s with
  | [] => []
  | c :: s' =>
      match s' with
      | d :: s'' =>
          if N.eqb c (ch "\") && N.eqb d x
          then ch "$" :: dollarFor x s''
          else c :: dollarFor x s'
      | [] => [c]
      end
  end.

(** The expression [/\\x/g] for a character [x]. *)
Definition re_escaped (x : char) : regex := [[One (Chr (ch "\")); One (Chr x)]].

(** Does the character [c] occur in [s]. *)
Definition occurs (c : char) (s : jsstring) : bool := existsb (N.eqb c) s.

(* ================================================================== *)
(** * Asks in flight *)
(* ================================================================== *)

(** The page together with the [/chat/ask] requests that have been sent and
    not yet answered.  The user edits the question, presses Enter (which
    calls [ask] whatever [loading] says), and responses arrive, in any order. *)
Record world := {
  chat : PageState;
  pending : list request
}.

Inductive event :=
| Typed (text : jsstring)                          (* onChange of the question box *)
| AskCalled                                        (* ask() *)
| Arrived (i : nat) (out : fetched Payload.t).     (* the i-th pending request settles *)

(** [l] without its [i]-th element. *)
Definition without {A} (i : nat) (l : list A) : list A :=
  firstn i l ++ skipn (S i) l.

Definition step (API : jsstring) (e : event) (w : world) : option world :=
  match e with
  | Typed text =>
      Some {| chat := fst (setQ text (chat w)); pending := pending w |}
  | AskCalled =>
      let (st, es) := ask_begin API (chat w) (chat w) in
      Some {| chat := st; pending := pending w ++ requests es |}
  | Arrived i out =>
      match nth_error (pending w) i with
      | Some _ =>
          Some {| chat := fst (ask_settle out (chat w));
                  pending := without i (pending w) |}
      | None => None
      end
  end.

Fixpoint run (API : jsstring) (es : list event) (w : world) : option world :=
  match es with
  | [] => Some w
  | e :: es' =>
      match step API e w with
      | Some w' => run API es' w'
      | None => None
      end
  end.

(** What the page displays of an ask: answer, sources, metadata and error. *)
Definition shown (st : PageState) : jsstring * list Source * json * option jsstring :=
  (answer st, sources st, meta st, err st).

(* ================================================================== *)
(** * Sample values *)
(* ================================================================== *)

Definition sample_API : jsstring := lit "http://localhost:8001".

Definition algo : Course :=
  {| id := lit "c1"; name := lit "Algo"; term := Str (lit "Fall") |}.

Definition logic : Course :=
  {| id := lit "c2"; name := lit "Logic"; term := Str [] |}.

(** A page with a user, a selected course and a question typed in. *)
Definition sample_page : PageState :=
  {| q := lit "What is a heap?"; courseId := lit "c1"; answer := [];
     sources := []; meta := JNull; loading := false; err := None;
     courseLabel := []; userId := lit "u1"; courses := [algo; logic];
     loadingCourses := false; creating := false;
     newName := lit "Algo"; newTerm := [] |}.

(** The same page with a blank question box. *)
Definition blank_question_page : PageState := fst (setQ (lit "  ") sample_page).

(** The same page with a course selected that is not in the list. *)
Definition stray_page : PageState := fst (setCourseId (lit "zz") sample_page).

(** A successful response with body [data], and a failed one with status
    [code] and body text [txt]. *)
Definition success {A} (data : A) : fetched A :=
  Fulfilled {| status := 200; res_text := Fulfilled []; res_json := Fulfilled data |}.

Definition failure {A} (code : N) (txt : jsstring) : fetched A :=
  Fulfilled {| status := code; res_text := Fulfilled txt;
               res_json := RejectedWith {| error_name := lit "SyntaxError";
                                           error_message := lit "Unexpected token" |} |}.

Definition answer_payload (txt : jsstring) : Payload.t :=
  {| Payload.answer := Str txt; Payload.sources_dedup := None;
     Payload.sources := None; Payload.meta := None |}.

Definition notes_txt : File :=
  {| file_name := lit "notes.txt"; file_type := lit "text/plain"; file_size := 2048 |}.

Definition sample_props : NotesUploader.Props :=
  {| NotesUploader.API := sample_API; NotesUploader.userId := lit "u1";
     NotesUploader.courseId := lit "c1" |}.

Definition sample_uploader : NotesUploader.State :=
  {| NotesUploader.open := true; NotesUploader.kind := NotesUploader.pdf;
     NotesUploader.file := Some notes_txt; NotesUploader.uploading := false;
     NotesUploader.msg := None; NotesUploader.err := None |}.

(* ================================================================== *)
(** * The page at start up *)
(* ================================================================== *)

(** The environment variables the page reads. *)
Record Env := {
  NEXT_PUBLIC_API_BASE : maybe_string;
  NEXT_PUBLIC_PDES_COURSE_ID : maybe_string;
  NEXT_PUBLIC_DEMO_USER_ID : maybe_string
}.

(** [process.env.X || fallback] *)
Definition envOr (v : maybe_string) (fallback : jsstring) : jsstring :=
  if truthy v then text v else fallback.

Definition API (env : Env) : jsstring :=
  envOr (NEXT_PUBLIC_API_BASE env) (lit "http://localhost:8001").




(* ================================================================== *)
(** * The other handlers of the uploader *)
(* ================================================================== *)

(** [onPick]: the file input changed; [files] is [e.target.files]. *)
Definition onPick (files : list File) : action NotesUploader.State :=
  NotesUploader.setMsg None ;;
  NotesUploader.setErr None ;;
  NotesUploader.setFile (match files with
                         | f :: _ => Some f
                         | [] => None
                         end).

(** The click handler of the PDF and Image chips. *)
Definition chooseKind (k : NotesUploader.upload_kind) : action NotesUploader.State :=
  NotesUploader.setKind k ;;
  NotesUploader.setFile None ;;
  NotesUploader.setErr None ;;
  NotesUploader.setMsg None.

(* ================================================================== *)
(** * Identity from the auth session *)
(* ================================================================== *)

(** The two hooks of the page that the session effect writes, and the
    handlers of that effect. *)
Module Session.

Record State := {
  userId : jsstring;
  lockedByAuth : bool
}.

(** [if (uid) { setUserId(uid); setLockedByAuth(true); }] *)
Definition adopt (uid : maybe_string) (st : State) : State :=
  {| userId := text uid; lockedByAuth := true |}.

(** The callback of [getSession().then(...)]; [uid] is
    [data.session?.user?.id]. *)
Definition onSession (mounted : bool) (uid : maybe_string) (st : State) : State :=
  if mounted && truthy uid then adopt uid st else st.

(** The callback of [onAuthStateChange]; [uid] is [session?.user?.id]. *)
Definition onAuthStateChange (uid : maybe_string) (st : State) : State :=
  if truthy uid then adopt uid st
  else {| userId := userId st; lockedByAuth := false |}.

(** [onChange] of the user id input, which is rendered only when
    [!lockedByAuth]. *)
Definition onUserIdInput (value : jsstring) (st : State) : State :=
  if lockedByAuth st then st
  else {| userId := value; lockedByAuth := lockedByAuth st |}.

Inductive event :=
| SessionRead (mounted : bool) (uid : maybe_string)
| AuthChanged (uid : maybe_string)
| UserIdTyped (value : jsstring).

Definition step (e : event) (st : State) : State :=
  match e with
  | SessionRead mounted uid => onSession mounted uid st
  | AuthChanged uid => onAuthStateChange uid st
  | UserIdTyped value => onUserIdInput value st
  end.

Definition run (es : list event) (st : State) : State :=
  fold_left (fun s e => step e s) es st.

End Session.

(* ================================================================== *)
(** * The sign-in page *)
(* ================================================================== *)

Module SignInPage.

(** The state hooks of [SignInPage]. *)
Record State := {
  email : jsstring;
  msg : option jsstring;
  err : option jsstring;
  loading : bool
}.




Section Handlers.

(** [window.location.origin] *)
Variable origin : jsstring.



End Handlers.





End SignInPage.

(* ================================================================== *)
(** * Words for the properties of the handlers *)
(* ================================================================== *)

(** [t] is [s] with some stretches left out, each right after a closing
    bracket that is kept. *)
Inductive trimmedAfterBrackets : jsstring -> jsstring -> Prop :=
| tab_nil : trimmedAfterBrackets [] []
| tab_keep c s t :
    trimmedAfterBrackets s t -> trimmedAfterBrackets (c :: s) (c :: t)
| tab_drop d s t :
    trimmedAfterBrackets s t ->
    trimmedAfterBrackets (ch "]" :: d ++ s) (ch "]" :: t).

(** Does every [ask] of the run start with no request in flight. *)
Fixpoint nonOverlapping (API : jsstring) (es : list event) (w : world) : bool :=
  match es with
  | [] => true
  | e :: es' =>
      match e with
      | AskCalled => match pending w with [] => true | _ :: _ => false end
      | _ => true
      end
      && match step API e w with
         | Some w' => nonOverlapping API es' w'
         | None => true
         end
  end.

(** The body of a response that arrived, was ok and could be read as JSON;
    nothing for every other outcome of a fetch. *)
Definition succeeded {A} (out : fetched A) : option A :=
  match out with
  | Fulfilled res =>
      if ok res
      then match res_json res with
           | Fulfilled a => Some a
           | RejectedWith _ => None
           end
      else None
  | RejectedWith _ => None
  end.

(** The value of the header [name] of a request. *)
Definition header (name : jsstring) (r : request) : option jsstring :=
  option_map snd (find (fun h => Js.eqb (fst h) name) (req_headers r)).

(** The page shows no answer next to an error. *)
Definition answerOrError (st : PageState) : Prop :=
  err st = None \/ (answer st = [] /\ sources st = [] /\ meta st = JNull).

(** A world at rest shows no answer next to an error; with one request in
    flight it shows nothing of an earlier ask; and no more than one is in
    flight. *)
Definition calm (w : world) : Prop :=
  match pending w with
  | [] => answerOrError (chat w)
  | [_] => shown (chat w) = ([], [], JNull, None)
  | _ :: _ :: _ => False
  end.

(** With nothing in flight the page is not loading. *)
Definition idle (w : world) : Prop :=
  pending w = [] -> loading (chat w) = false.

(** Did the upload go through: a response arrived, its text could be read
    and it was ok. *)
Definition uploaded (out : fetched unit) : bool :=
  match out with
  | Fulfilled res =>
      match res_text res with
      | Fulfilled _ => ok res
      | RejectedWith _ => false
      end
  | RejectedWith _ => false
  end.

(** Sample values. *)
Definition answered_page : PageState :=
  fst ((setAnswer (lit "A heap is a tree.") ;; setUserId []) sample_page).

(** Two asks one after the other, the second one failing, and where that
    run ends. *)
Definition two_asks : list event :=
  [AskCalled; Arrived 0 (success (answer_payload (lit "A1")));
   Typed (lit "second"); AskCalled; Arrived 0 (failure 500 (lit "boom"))].

Definition after_two_asks : world :=
  match run sample_API two_asks {| chat := sample_page; pending := [] |} with
  | Some w => w
  | None => {| chat := sample_page; pending := [] |}
  end.

(** A session that begins, the user typing while it lasts, and its end. *)
Definition session_events : list Session.event :=
  [Session.SessionRead true (Str (lit "uid-1")); Session.UserIdTyped (lit "x");
   Session.AuthChanged Undefined].

Definition manual_identity : Session.State :=
  {| Session.userId := lit "u1"; Session.lockedByAuth := false |}.

Definition no_env : Env :=
  {| NEXT_PUBLIC_API_BASE := Undefined; NEXT_PUBLIC_PDES_COURSE_ID := Undefined;
     NEXT_PUBLIC_DEMO_USER_ID := Str [] |}.

Definition sample_world : world := {| chat := sample_page; pending := [] |}.

Definition compilers : Course :=
  {| id := lit "c3"; name := lit "Compilers"; term := Null |}.

(* ================================================================== *)
(** * Properties *)
(* ================================================================== *)

(** ** Strings *)

Lemma isEmpty_true (s : jsstring) : isEmpty s = true <-> s = [].
Proof. destruct s; simpl; split; congruence. Qed.

Lemma isEmpty_false (s : jsstring) : isEmpty s = false <-> s <> [].
Proof. destruct s; simpl; split; congruence. Qed.

Lemma orElse_nil (s : jsstring) : orElse s [] = s.
Proof. destruct s; reflexivity. Qed.

Lemma eqb_eq (a b : jsstring) : Js.eqb a b = true <-> a = b.
Proof.
  revert b; induction a as [|x a IH]; intros [|y b]; simpl; split;
    try congruence; try reflexivity.
  - intros H. apply andb_true_iff in H as [Hx Hab].
    apply N.eqb_eq in Hx. apply IH in Hab. congruence.
  - intros H. injection H as -> ->. rewrite N.eqb_refl. simpl. now apply IH.
Qed.

Lemma eqb_refl (a : jsstring) : Js.eqb a a = true.
Proof. now apply eqb_eq. Qed.

(** ** Course lookup *)

Lemma findCourse_Some (rows : list Course) (sel : jsstring) (c : Course) :
  findCourse rows sel = Some c -> In c rows /\ id c = sel.
Proof.
  unfold findCourse. intros H. apply find_some in H as [Hin Heq].
  split; [assumption | now apply eqb_eq].
Qed.

Lemma findCourse_None (rows : list Course) (sel : jsstring) :
  findCourse rows sel = None <-> (forall c, In c rows -> id c <> sel).
Proof.
  unfold findCourse. split.
  - intros H c Hin Heq.
    pose proof (find_none _ _ H c Hin) as Hc. simpl in Hc.
    rewrite <- Heq, eqb_refl in Hc. discriminate.
  - intros H. destruct (find _ rows) as [c|] eqn:E; [|reflexivity].
    apply find_some in E as [Hin Heq]. apply eqb_eq in Heq.
    now elim (H c Hin).
Qed.

(** Splitting of a conjunction into its parts. *)
Ltac parts := repeat match goal with |- _ /\ _ => split end.

(** Unfolding of the action combinators and of the setters. *)
Ltac act :=
  cbv [andThen skip emit setQ setCourseId setAnswer setSources setMeta
       setLoading setErr setCourseLabel setUserId setCourses setLoadingCourses
       setCreating setNewName setNewTerm updateCourses
       NotesUploader.setOpen NotesUploader.setKind NotesUploader.setFile
       NotesUploader.setUploading NotesUploader.setMsg NotesUploader.setErr
       NotesUploader.send shown fst snd
       q courseId answer sources meta loading err courseLabel userId courses
       loadingCourses creating newName newTerm
       NotesUploader.open NotesUploader.kind NotesUploader.file
       NotesUploader.uploading NotesUploader.msg NotesUploader.err];
  cbn [app requests alerts flat_map].

(** ** Course labels *)

(** C10. [labelFromCourse] gives the empty label for a missing course; for a
    course whose term is the empty string, null or undefined it gives the
    course name alone; and it gives "name — term" exactly when the term is a
    non empty string. *)
Theorem labelFromCourse_term :
  labelFromCourse None = [] /\
  (forall c : Course,
      term c = Str [] \/ term c = Null \/ term c = Undefined ->
      labelFromCourse (Some c) = name c) /\
  (forall (c : Course) (t : jsstring),
      term c = Str t -> t <> [] ->
      labelFromCourse (Some c) = name c ++ lit " " ++ [emdash] ++ lit " " ++ t) /\
  (forall c : Course,
      labelFromCourse (Some c) <> name c ->
      exists t, term c = Str t /\ t <> []).
Proof.
  split; [reflexivity|]. split; [|split].
  - intros c [H | [H | H]]; unfold labelFromCourse; rewrite H; reflexivity.
  - intros c t H Ht. unfold labelFromCourse. rewrite H.
    destruct t; [congruence | reflexivity].
  - intros c H. unfold labelFromCourse in H.
    destruct (term c) as [| |[|x t]] eqn:E; simpl in H; try congruence.
    exists (x :: t). split; congruence.
Qed.

Example labelFromCourse_algo :
  labelFromCourse (Some algo) = lit "Algo " ++ [emdash] ++ lit " Fall".
Proof. reflexivity. Qed.

Example labelFromCourse_logic : labelFromCourse (Some logic) = lit "Logic".
Proof. reflexivity. Qed.

(** C6. Label resolution: an empty selection gives the empty label; a
    selection found in the local list gives "name — term" when the term is
    present and the name otherwise, without a request; otherwise one request
    for the course is sent and, unless the resolution was superseded, a 403
    response gives "(not your course)", every other failure gives "(unknown
    course)" and a success gives the label of the fetched course; a
    superseded resolution sets nothing. *)
Theorem hydrateLabel_resolution (API : jsstring) (cl st : PageState) :
  ((exists c, In c (courses cl) /\ id c = courseId cl)
   <-> exists local, findCourse (courses cl) (courseId cl) = Some local) /\
  (courseId cl = [] ->
   courseLabel (fst (hydrateLabel_begin API cl st)) = [] /\
   snd (hydrateLabel_begin API cl st) = []) /\
  (forall local,
      courseId cl <> [] -> findCourse (courses cl) (courseId cl) = Some local ->
      courseLabel (fst (hydrateLabel_begin API cl st))
      = (if truthy (term local)
         then name local ++ lit " " ++ [emdash] ++ lit " " ++ text (term local)
         else name local) /\
      snd (hydrateLabel_begin API cl st) = []) /\
  (courseId cl <> [] -> findCourse (courses cl) (courseId cl) = None ->
   hydrateLabel_begin API cl st
   = (st, [Fetch {| req_url := API ++ lit "/courses/" ++ courseId cl;
                    req_method := GET;
                    req_headers := [(lit "X-User-Id", userId cl)];
                    req_body := NoBody |}])) /\
  (forall res : response Course,
      status res = 403%N ->
      courseLabel (fst (hydrateLabel_settle false (Fulfilled res) st))
      = lit "(not your course)") /\
  (forall e,
      courseLabel (fst (hydrateLabel_settle false (RejectedWith e) st))
      = lit "(unknown course)") /\
  (forall res : response Course,
      status res <> 403%N -> ok res = false ->
      courseLabel (fst (hydrateLabel_settle false (Fulfilled res) st))
      = lit "(unknown course)") /\
  (forall (res : response Course) e,
      ok res = true -> res_json res = RejectedWith e ->
      courseLabel (fst (hydrateLabel_settle false (Fulfilled res) st))
      = lit "(unknown course)") /\
  (forall (res : response Course) c,
      ok res = true -> res_json res = Fulfilled c ->
      courseLabel (fst (hydrateLabel_settle false (Fulfilled res) st))
      = labelFromCourse (Some c)) /\
  (forall out, hydrateLabel_settle true out st = (st, [])).
Proof.
  assert (Hok : forall res : response Course,
             ok res = true -> N.eqb (status res) 403 = false).
  { intros res H. unfold ok in H. apply andb_true_iff in H as [_ H].
    apply N.leb_le in H. apply N.eqb_neq. lia. }
  parts.
  - split.
    + intros (c & Hin & Hid).
      destruct (findCourse (courses cl) (courseId cl)) as [local|] eqn:E;
        [now exists local|].
      elim (proj1 (findCourse_None _ _) E c Hin Hid).
    + intros (local & E). exists local. now apply findCourse_Some.
  - intros H. unfold hydrateLabel_begin. rewrite H. split; reflexivity.
  - intros local H H0. unfold hydrateLabel_begin.
    apply isEmpty_false in H. rewrite H, H0. split; reflexivity.
  - intros Hne Hnone. unfold hydrateLabel_begin.
    apply isEmpty_false in Hne. rewrite Hne, Hnone. reflexivity.
  - intros res H. unfold hydrateLabel_settle. rewrite H. reflexivity.
  - intros e. reflexivity.
  - intros res H1 H2. unfold hydrateLabel_settle.
    apply N.eqb_neq in H1. rewrite H1, H2. reflexivity.
  - intros res e H1 H2. unfold hydrateLabel_settle.
    rewrite (Hok res H1), H1, H2. reflexivity.
  - intros res c H1 H2. unfold hydrateLabel_settle.
    rewrite (Hok res H1), H1, H2. reflexivity.
  - intros [res|e]; [|reflexivity]. unfold hydrateLabel_settle.
    destruct (N.eqb (status res) 403); [reflexivity|].
    destruct (negb (ok res)); [reflexivity|].
    destruct (res_json res); reflexivity.
Qed.

Example hydrateLabel_local :
  hydrateLabel_begin sample_API sample_page sample_page
  = (fst (setCourseLabel (lit "Algo " ++ [emdash] ++ lit " Fall") sample_page), []).
Proof. reflexivity. Qed.

Example hydrateLabel_forbidden :
  courseLabel (fst (hydrateLabel_settle false (failure 403 (lit "Not your course"))
                      stray_page))
  = lit "(not your course)".
Proof. reflexivity. Qed.

Example hydrateLabel_missing :
  courseLabel (fst (hydrateLabel_settle false (failure 404 []) stray_page))
  = lit "(unknown course)".
Proof. reflexivity. Qed.

(** ** Course list *)



Example loadCourses_repairs_stray :
  courseId (fst (loadCourses_settle stray_page (success [logic; algo]) stray_page))
  = lit "c2".
Proof. reflexivity. Qed.

Example loadCourses_empty_list_keeps :
  courseId (fst (loadCourses_settle stray_page (success []) stray_page))
  = lit "zz".
Proof. reflexivity. Qed.

(** C7. [createCourse] with a name that is blank after trimming changes no
    state and sends no request (and does nothing at all when a user is set);
    with an empty user id it raises the alert and sends no request; with a
    user and the name "Algo" and an empty term it sends one POST whose body
    carries the term "". *)
Theorem createCourse_preconditions (API : jsstring) (cl st : PageState) :
  (trim (newName cl) = [] ->
   fst (createCourse_begin API cl st) = st /\
   requests (snd (createCourse_begin API cl st)) = [] /\
   (userId cl <> [] -> snd (createCourse_begin API cl st) = [])) /\
  (userId cl = [] ->
   fst (createCourse_begin API cl st) = st /\
   requests (snd (createCourse_begin API cl st)) = [] /\
   alerts (snd (createCourse_begin API cl st))
   = [lit "Please set your User ID (UUID) in the sidebar."]) /\
  (userId cl <> [] -> trim (newName cl) <> [] ->
   snd (createCourse_begin API cl st)
   = [Fetch {| req_url := API ++ lit "/courses";
               req_method := POST;
               req_headers := [(lit "Content-Type", lit "application/json");
                               (lit "X-User-Id", userId cl)];
               req_body := JSON_stringify [(lit "name", trim (newName cl));
                                           (lit "term", newTerm cl)] |}]) /\
  (userId cl <> [] -> newName cl = lit "Algo" -> newTerm cl = [] ->
   exists r, snd (createCourse_begin API cl st) = [Fetch r] /\
             req_body r = JSON_stringify [(lit "name", lit "Algo"); (lit "term", [])]).
Proof.
  unfold createCourse_begin. parts.
  - intros H. rewrite H. destruct (isEmpty (userId cl)) eqn:E; act.
    + repeat split. intros Hu. apply isEmpty_true in E. contradiction.
    + repeat split.
  - intros H. rewrite H. act. repeat split.
  - intros Hu Hn. apply isEmpty_false in Hu, Hn. rewrite Hu, Hn. act.
    now rewrite orElse_nil.
  - intros Hu Hn Ht. apply isEmpty_false in Hu. rewrite Hu, Hn, Ht. act.
    eexists. split; reflexivity.
Qed.

Example createCourse_blank_name :
  createCourse_begin sample_API (fst (setNewName (lit "  ") sample_page)) sample_page
  = (sample_page, []).
Proof. reflexivity. Qed.

Example createCourse_algo :
  snd (createCourse_begin sample_API sample_page sample_page)
  = [Fetch {| req_url := lit "http://localhost:8001/courses";
              req_method := POST;
              req_headers := [(lit "Content-Type", lit "application/json");
                              (lit "X-User-Id", lit "u1")];
              req_body := JSON_stringify [(lit "name", lit "Algo");
                                          (lit "term", [])] |}].
Proof. reflexivity. Qed.

(** ** Asking *)

(** C4, as the page has it. When the question is blank after trimming, or
    the user id is empty, or the course id is empty, [ask] sends no request.
    A blank question is a silent return that leaves the page as it was; an
    empty user id and an empty course id each set their own message. *)
Theorem ask_preconditions (API : jsstring) (cl st : PageState) :
  (trim (q cl) = [] \/ userId cl = [] \/ courseId cl = [] ->
   snd (ask_begin API cl st) = []) /\
  (trim (q cl) = [] -> fst (ask_begin API cl st) = st) /\
  (trim (q cl) <> [] -> userId cl = [] ->
   err (fst (ask_begin API cl st)) = Some (lit "No user id set")) /\
  (trim (q cl) <> [] -> userId cl <> [] -> courseId cl = [] ->
   err (fst (ask_begin API cl st))
   = Some (lit "No course selected. Create or pick a course on the left.")) /\
  lit "No user id set"
  <> lit "No course selected. Create or pick a course on the left.".
Proof.
  unfold ask_begin. parts.
  - intros H.
    destruct (isEmpty (trim (q cl))) eqn:Eq; [reflexivity|].
    destruct (isEmpty (userId cl)) eqn:Eu; [reflexivity|].
    destruct (isEmpty (courseId cl)) eqn:Ec; [reflexivity|].
    apply isEmpty_false in Eq, Eu, Ec. tauto.
  - intros H. rewrite H. reflexivity.
  - intros Hq Hu. apply isEmpty_false in Hq. rewrite Hq, Hu. reflexivity.
  - intros Hq Hu Hc. apply isEmpty_false in Hq, Hu. rewrite Hq, Hu, Hc. reflexivity.
  - discriminate.
Qed.

(** C4 as stated fails: with a blank question (and a user and a course set)
    [ask] returns without setting any message. *)
Lemma ask_blank_question_no_message :
  trim (q blank_question_page) = [] /\
  ask_begin sample_API blank_question_page blank_question_page
  = (blank_question_page, []) /\
  err blank_question_page = None.
Proof. repeat split. Qed.




(** Two asks one after the other: the page shows the outcome of the second
    alone. *)
Example sequential_asks_latest_wins :
  option_map (fun w => (answer (chat w), err (chat w), pending w))
    (run sample_API
       [AskCalled; Arrived 0 (success (answer_payload (lit "A1")));
        Typed (lit "second"); AskCalled; Arrived 0 (failure 500 (lit "boom"))]
       {| chat := sample_page; pending := [] |})
  = Some ([], Some (lit "boom"), []).
Proof. vm_compute. reflexivity. Qed.

(** A failed response without body text shows the status. *)
Example ask_http_status :
  err (fst (ask_settle (failure 500 []) sample_page)) = Some (lit "HTTP 500").
Proof. vm_compute. reflexivity. Qed.


(** ** Uploading *)

Section Upload.

Import NotesUploader.

Variable toLowerCase : jsstring -> jsstring.
Variable props : Props.

(** C8. [onUpload] checks the user id, the course id and the presence of
    a file, in that order, each with its own message.  For kind pdf, a
    file whose type is not application/pdf and whose lower-cased name does
    not end in .pdf, or whose size exceeds 100 MiB, is rejected with the
    file-type or the size message, and no request is sent; for kind image
    a present file is sent as it is. *)
Theorem onUpload_guards (cl st : State) :
  let r := onUpload_begin toLowerCase props cl st in
  (userId props = [] ->
   err (fst r) = Some (lit "Set a user id first.") /\
   snd r = []) /\
  (userId props <> [] -> courseId props = [] ->
   err (fst r) = Some (lit "Pick or create a course first.") /\
   snd r = []) /\
  (userId props <> [] -> courseId props <> [] -> file cl = None ->
   err (fst r) = Some (lit "Choose a file to upload.") /\
   snd r = []) /\
  (forall f,
      kind cl = pdf -> file cl = Some f ->
      (file_type f <> lit "application/pdf" /\
       endsWith (toLowerCase (file_name f)) (lit ".pdf") = false)
      \/ (MAX_PDF_BYTES < file_size f)%N ->
      snd r = [] /\
      (userId props <> [] -> courseId props <> [] ->
       err (fst r)
       = Some (if Js.eqb (file_type f) (lit "application/pdf")
                  || endsWith (toLowerCase (file_name f)) (lit ".pdf")
               then lit "PDF too large (>100MB)."
               else lit "Please choose a .pdf file."))) /\
  (forall f,
      kind cl = pdf -> file cl = Some f ->
      userId props <> [] -> courseId props <> [] ->
      file_type f = lit "application/pdf"
      \/ endsWith (toLowerCase (file_name f)) (lit ".pdf") = true ->
      (file_size f <= MAX_PDF_BYTES)%N ->
      snd r = [Fetch (upload_request props (lit "/upload/pdf") f)]) /\
  (forall f,
      kind cl = image -> file cl = Some f ->
      userId props <> [] -> courseId props <> [] ->
      snd r = [Fetch (upload_request props (lit "/upload/image") f)]) /\
  MAX_PDF_BYTES = 104857600%N.
Proof.
  intros r. subst r. unfold onUpload_begin. parts.
  - intros Hu. rewrite Hu. split; reflexivity.
  - intros Hu Hc. apply isEmpty_false in Hu. rewrite Hu, Hc. split; reflexivity.
  - intros Hu Hc Hf. apply isEmpty_false in Hu, Hc. rewrite Hu, Hc, Hf.
    split; reflexivity.
  - intros f Hk Hf Hbad. rewrite Hk, Hf.
    assert (Hguard :
              Js.eqb (file_type f) (lit "application/pdf")
              || endsWith (toLowerCase (file_name f)) (lit ".pdf") = false
              \/ N.ltb MAX_PDF_BYTES (file_size f) = true).
    { destruct Hbad as [[Ht Hn] | Hs].
      - left. rewrite Hn, orb_false_r.
        destruct (Js.eqb _ _) eqn:E; [|reflexivity].
        apply eqb_eq in E. contradiction.
      - right. now apply N.ltb_lt. }
    destruct (isEmpty (userId props)) eqn:Eu;
      [split; [reflexivity | apply isEmpty_true in Eu; tauto]|].
    destruct (isEmpty (courseId props)) eqn:Ec;
      [split; [reflexivity | apply isEmpty_true in Ec; tauto]|].
    destruct (Js.eqb _ _ || endsWith _ _) eqn:Ep; simpl negb; cbv iota.
    + destruct Hguard as [Hg | Hg]; [discriminate|]. rewrite Hg.
      split; reflexivity.
    + split; reflexivity.
  - intros f Hk Hf Hu Hc Hpdf Hsize.
    apply isEmpty_false in Hu, Hc. rewrite Hk, Hf, Hu, Hc.
    assert (Hp : Js.eqb (file_type f) (lit "application/pdf")
                 || endsWith (toLowerCase (file_name f)) (lit ".pdf") = true).
    { destruct Hpdf as [Ht | Hn].
      - apply eqb_eq in Ht. now rewrite Ht.
      - rewrite Hn. apply orb_true_r. }
    rewrite Hp. simpl negb. cbv iota.
    assert (Hs : N.ltb MAX_PDF_BYTES (file_size f) = false)
      by (apply N.ltb_ge; exact Hsize).
    rewrite Hs. unfold send. rewrite Hk. reflexivity.
  - intros f Hk Hf Hu Hc.
    apply isEmpty_false in Hu, Hc. rewrite Hk, Hf, Hu, Hc.
    unfold send. rewrite Hk. reflexivity.
  - reflexivity.
Qed.

End Upload.

(** The file notes.txt under kind pdf: the file-type message, and no
    request. *)
Example onUpload_notes_txt :
  let r := NotesUploader.onUpload_begin NotesUploader.asciiLowerCase sample_props
             sample_uploader sample_uploader in
  NotesUploader.err (fst r) = Some (lit "Please choose a .pdf file.") /\ snd r = [].
Proof. split; reflexivity. Qed.

(** The same file under kind image is sent. *)
Example onUpload_notes_as_image :
  snd (NotesUploader.onUpload_begin NotesUploader.asciiLowerCase sample_props
         (fst (NotesUploader.setKind NotesUploader.image sample_uploader))
         sample_uploader)
  = [Fetch (NotesUploader.upload_request sample_props (lit "/upload/image") notes_txt)].
Proof. reflexivity. Qed.

(** ** Regular expression search *)

Section Search.

Variable re : regex.

(** A position without a match is kept. *)
Lemma scan_keep (c : char) (s pre : jsstring) :
  matchAt re (c :: s) = None ->
  scan re 0 pre (c :: s) = Keep c :: scan re 0 (pre ++ [c]) s.
Proof. intros H. simpl. now rewrite H. Qed.

(** The rest of a match is passed over. *)
Lemma scan_skip (m rest pre : jsstring) :
  scan re (length m) pre (m ++ rest) = scan re 0 (pre ++ m) rest.
Proof.
  revert pre. induction m as [|c m IH]; intros pre; simpl.
  - now rewrite app_nil_r.
  - rewrite IH, <- app_assoc. reflexivity.
Qed.

(** A match of the non empty text [m] gives one hit, and the search goes
    on after it. *)
Lemma scan_match (m rest pre : jsstring) (caps : list jsstring) :
  m <> [] ->
  matchAt re (m ++ rest) = Some (length m, caps) ->
  scan re 0 pre (m ++ rest)
  = Hit {| matched := m; captures := caps; before := pre; after := rest |}
    :: scan re 0 (pre ++ m) rest.
Proof.
  intros Hm H. destruct m as [|c m]; [congruence|].
  change ((c :: m) ++ rest) with (c :: (m ++ rest)) in *.
  cbn [scan]. rewrite H. cbn [length].
  rewrite scan_skip, <- app_assoc.
  change (c :: m ++ rest) with ((c :: m) ++ rest).
  change (S (length m)) with (length (c :: m)).
  rewrite firstn_app, Nat.sub_diag, firstn_all, skipn_app, Nat.sub_diag, skipn_all.
  simpl. now rewrite app_nil_r.
Qed.


(** Where the expression matches nowhere, the search finds nothing. *)
Lemma scan_test_false (s pre : jsstring) :
  test re s = false -> scan re 0 pre s = map Keep s.
Proof.
  revert pre. induction s as [|c s IH]; intros pre H; simpl in *.
  - destruct (matchAt re []); [discriminate | reflexivity].
  - destruct (matchAt re (c :: s)); [discriminate|].
    now rewrite IH.
Qed.

Lemma render_keep (g : hit -> jsstring) (s : jsstring) :
  flat_map (render g) (map Keep s) = s.
Proof. induction s as [|c s IH]; simpl; congruence. Qed.

(** Replacing every match by itself gives the text back. *)
Lemma scan_identity (s pre : jsstring) (k : nat) :
  flat_map (render matched) (scan re k pre s) = skipn k s.
Proof.
  revert pre k. induction s as [|c s IH]; intros pre k.
  - destruct k; simpl; [|reflexivity].
    destruct (matchAt re []) as [[n caps]|]; reflexivity.
  - destruct k as [|k]; [|simpl; apply IH].
    cbn [scan]. destruct (matchAt re (c :: s)) as [[[|n] caps]|].
    + simpl. now rewrite (IH _ 0).
    + cbn [flat_map render matched]. rewrite IH.
      change (firstn (S n) (c :: s)) with (c :: firstn n s).
      simpl. now rewrite firstn_skipn.
    + simpl. now rewrite (IH _ 0).
Qed.


(** When every match stands for itself under [g], so does the text. *)
Lemma scan_fixed (g : hit -> jsstring) (s pre : jsstring) (k : nat) :
  (forall h, In (Hit h) (scan re k pre s) -> g h = matched h) ->
  flat_map (render g) (scan re k pre s) = skipn k s.
Proof.
  intros H. rewrite <- (scan_identity s pre k).
  induction (scan re k pre s) as [|seg l IH]; [reflexivity|].
  simpl. rewrite IH by (intros h Hh; apply H; now right).
  f_equal. destruct seg as [c|h]; [reflexivity|].
  simpl. apply H. now left.
Qed.

End Search.

(** ** Matching *)




Lemma includes_starts (s p : jsstring) :
  startsWith s p = true -> includes s p = true.
Proof. intros H. destruct s; simpl in *; rewrite H; reflexivity. Qed.

Lemma includes_suffix (a b p : jsstring) :
  includes (a ++ b) p = false -> includes b p = false.
Proof.
  induction a as [|c a IH]; [trivial|].
  simpl. intros H. apply orb_false_iff in H as [_ H]. auto.
Qed.

(** The expression of the wrapper matches only where the text starts with
    the wrapper's opening. *)
Lemma matchAt_text_starts (s : jsstring) (r : nat * list jsstring) :
  matchAt re_text s = Some r -> startsWith s (lit "\text{") = true.
Proof.
  destruct s as [|c1 [|c2 [|c3 [|c4 [|c5 [|c6 s]]]]]]; cbn;
    repeat (match goal with
            | |- context [N.eqb ?x ?y] => destruct (N.eqb x y); cbn
            end); try discriminate; intros _; reflexivity.
Qed.






(** The template of the link replacement: the number in brackets. *)
Lemma getSubstitution_cite (h : hit) (n : jsstring) :
  captures h = [n] -> getSubstitution h (lit "[$1]") = lit "[" ++ n ++ lit "]".
Proof. intros H. cbn. rewrite H. reflexivity. Qed.










(** ** The sanitizer *)

(** The expression of the legacy delimiters matches exactly where one of
    the four delimiters starts. *)
Lemma matchAt_legacy (s : jsstring) :
  matchAt re_legacy s
  = if existsb (startsWith s) legacy_delimiters then Some (2, []) else None.
Proof.
  destruct s as [|a [|b s]]; cbn;
    repeat (match goal with
            | |- context [N.eqb ?x ?y] => destruct (N.eqb x y); cbn
            end); reflexivity.
Qed.

Lemma existsb_includes (s : jsstring) (c : char) (ps : list jsstring) :
  existsb (includes (c :: s)) ps
  = existsb (startsWith (c :: s)) ps || existsb (includes s) ps.
Proof.
  induction ps as [|p ps IH]; [reflexivity|].
  cbn [existsb]. rewrite IH. cbn [includes].
  destruct (startsWith (c :: s) p), (includes s p),
    (existsb (startsWith (c :: s)) ps); reflexivity.
Qed.

(** The test of [normalizeMath] is the presence of a legacy delimiter. *)
Lemma test_legacy (s : jsstring) : test re_legacy s = hasLegacyDelimiter s.
Proof.
  unfold hasLegacyDelimiter. induction s as [|c s IH]; [reflexivity|].
  cbn [test]. rewrite matchAt_legacy, existsb_includes, IH.
  destruct (existsb (startsWith (c :: s)) legacy_delimiters); reflexivity.
Qed.

Lemma normalizeMath_without_legacy (s : jsstring) :
  hasLegacyDelimiter s = false -> normalizeMath s = s.
Proof.
  intros H. unfold normalizeMath. rewrite test_legacy, H.
  destruct (isEmpty s); reflexivity.
Qed.

(** A text in which the link expression matches nowhere is left as it is. *)
Lemma replace_test_false (re : regex) (template s : jsstring) :
  test re s = false -> replace re template s = s.
Proof.
  intros H. unfold replace. rewrite scan_test_false by assumption.
  apply render_keep.
Qed.

Lemma matchAll_hit (re : regex) (s : jsstring) (h : hit) :
  In (Hit h) (scan re 0 [] s) -> In (matched h) (matchAll re s).
Proof.
  intros H. unfold matchAll. apply in_flat_map.
  exists (Hit h). split; [assumption | now left].
Qed.

(** Where no wrapper holds a link, the text is left as it is. *)
Lemma sanitizeInlineCitations_no_cites (s : jsstring) :
  citesInText s = false -> sanitizeInlineCitations s = s.
Proof.
  intros H. unfold sanitizeInlineCitations, replaceWith. rewrite orElse_nil.
  rewrite scan_fixed; [reflexivity|].
  intros h Hh. apply replace_test_false.
  apply matchAll_hit in Hh.
  unfold citesInText in H.
  destruct (test re_cite (matched h)) eqn:E; [|reflexivity].
  assert (existsb (test re_cite) (matchAll re_text s) = true)
    by (apply existsb_exists; eauto).
  congruence.
Qed.

Lemma test_text_includes (s : jsstring) :
  includes s (lit "\text{") = false -> test re_text s = false.
Proof.
  induction s as [|c s IH]; intros H.
  - reflexivity.
  - cbn [test]. destruct (matchAt re_text (c :: s)) as [r|] eqn:M.
    + apply matchAt_text_starts, includes_starts in M. congruence.
    + apply IH. now apply (includes_suffix [c]).
Qed.

(** A text without the opening of a wrapper is left as it is. *)
Lemma sanitizeInlineCitations_no_wrapper (s : jsstring) :
  includes s (lit "\text{") = false -> sanitizeInlineCitations s = s.
Proof.
  intros H. unfold sanitizeInlineCitations, replaceWith. rewrite orElse_nil.
  rewrite scan_test_false by now apply test_text_includes.
  apply render_keep.
Qed.






Example sanitizeInlineCitations_inside_and_outside :
  sanitizeInlineCitations
    (lit "see [1](http://a) \text{as in [2](http://b)} and [3](http://c)")
  = lit "see [1](http://a) \text{as in [2]} and [3](http://c)".
Proof. vm_compute. reflexivity. Qed.

(** ** What a match consumes *)

(** A property of the results of what follows a repetition, kept when one
    more character is consumed, holds of the results of the repetition. *)
Lemma greedy_ind (a : atom) (k : jsstring -> result)
      (P : jsstring -> nat -> list jsstring -> Prop) :
  (forall s n caps, k s = Some (n, caps) -> P s n caps) ->
  (forall c s n caps, P s n caps -> P (c :: s) (S n) caps) ->
  forall s n caps, greedy a k s = Some (n, caps) -> P s n caps.
Proof.
  intros Hk Hstep. induction s as [|c s IH]; intros n caps H.
  - now apply Hk.
  - cbn [greedy] in H. destruct (accepts a c); [|now apply Hk].
    destruct (greedy a k s) as [[n0 caps0]|] eqn:G; [|now apply Hk].
    cbn [consume] in H. injection H as <- <-. apply Hstep. now apply IH.
Qed.

Lemma consume_Some (r : result) (n : nat) (caps : list jsstring) :
  consume r = Some (n, caps) -> exists n', n = S n' /\ r = Some (n', caps).
Proof.
  destruct r as [[n' caps']|]; [|discriminate].
  cbn [consume]. intros H. injection H as <- <-. now exists n'.
Qed.

(** A match consumes at least the least length of its items and at most the
    text. *)
Lemma matchItems_bounds (p : alternative) :
  forall opened caps s n caps',
    matchItems p opened caps s = Some (n, caps') ->
    minLength p <= n /\ n <= length s.
Proof.
  induction p as [|[a|a|a| |] p IH]; intros opened caps s n caps' H;
    cbn [matchItems minLength] in *.
  - injection H as <- _. split; lia.
  - destruct s as [|c s]; [discriminate|].
    destruct (accepts a c); [|discriminate].
    apply consume_Some in H as (n' & -> & H). apply IH in H. cbn [length]. lia.
  - refine (@greedy_ind a _ (fun s n _ => minLength p <= n /\ n <= length s)
              _ _ _ _ _ H).
    + intros s0 n0 caps0 H0. now apply IH in H0.
    + intros c s0 n0 caps0 H0. cbn [length]. lia.
  - destruct s as [|c s]; [discriminate|].
    destruct (accepts a c); [|discriminate].
    apply consume_Some in H as (n' & -> & H).
    assert (minLength p <= n' /\ n' <= length s); [|cbn [length]; lia].
    refine (@greedy_ind a _ (fun s n _ => minLength p <= n /\ n <= length s)
              _ _ _ _ _ H).
    + intros s0 n0 caps0 H0. now apply IH in H0.
    + intros c0 s0 n0 caps0 H0. cbn [length]. lia.
  - now apply IH in H.
  - now apply IH in H.
Qed.

(** Items without group marks leave the captures as they are. *)
Lemma matchItems_caps (p : alternative) :
  groupFree p = true ->
  forall opened caps s n caps',
    matchItems p opened caps s = Some (n, caps') -> caps' = caps.
Proof.
  unfold groupFree.
  induction p as [|[a|a|a| |] p IH]; intros Hp opened caps s n caps' H;
    cbn [matchItems forallb] in *; try discriminate.
  - now injection H as _ <-.
  - destruct s as [|c s]; [discriminate|].
    destruct (accepts a c); [|discriminate].
    apply consume_Some in H as (n' & -> & H). now apply IH in H.
  - refine (@greedy_ind a _ (fun _ _ c => c = caps) _ _ _ _ _ H).
    + intros s0 n0 caps0 H0. now apply IH in H0.
    + trivial.
  - destruct s as [|c s]; [discriminate|].
    destruct (accepts a c); [|discriminate].
    apply consume_Some in H as (n' & -> & H).
    refine (@greedy_ind a _ (fun _ _ c => c = caps) _ _ _ _ _ H).
    + intros s0 n0 caps0 H0. now apply IH in H0.
    + trivial.
Qed.

(** A repetition that succeeds after [n] characters has taken [j] of them
    and left the others to what follows. *)
Lemma greedy_split (a : atom) (k : jsstring -> result) (s : jsstring)
      (n : nat) (caps : list jsstring) :
  greedy a k s = Some (n, caps) ->
  exists j, j <= n /\ j <= length s /\ k (skipn j s) = Some (n - j, caps).
Proof.
  apply (@greedy_ind a k
           (fun s n caps =>
              exists j, j <= n /\ j <= length s
                        /\ k (skipn j s) = Some (n - j, caps))).
  - intros s0 n0 caps0 H. exists 0. rewrite Nat.sub_0_r.
    repeat split; [lia | lia | exact H].
  - intros c s0 n0 caps0 (j & Hj & Hl & H).
    exists (S j). cbn [length skipn Nat.sub]. repeat split; [lia | lia | exact H].
Qed.

(** A match of the link expression has one capture, at least five
    characters shorter than the match. *)
Lemma matchAt_cite_inv (s : jsstring) (n : nat) (caps : list jsstring) :
  matchAt re_cite s = Some (n, caps) ->
  exists cap, caps = [cap] /\ length cap + 5 <= n /\ n <= length s.
Proof.
  unfold re_cite, matchAt. intros H.
  destruct (matchItems _ None [] s) as [r|] eqn:M; [|discriminate].
  injection H as ->.
  pose proof (matchItems_bounds _ _ _ _ M) as [_ Hlen].
  remember [One (Chr (ch "]")); One (Chr (ch "("));
            Plus (Class true [CChar (ch ")")]); One (Chr (ch ")"))] as tail
    eqn:Et.
  destruct s as [|c0 [|d s2]]; cbn [matchItems] in M; try discriminate.
  - destruct (accepts (Chr (ch "[")) c0); discriminate.
  - destruct (accepts (Chr (ch "[")) c0); [|discriminate].
    apply consume_Some in M as (n1 & -> & M).
    destruct (accepts _ d); [|discriminate].
    apply consume_Some in M as (n2 & -> & M).
    apply greedy_split in M as (j & Hj & Hjs & M).
    pose proof (matchItems_bounds _ _ _ _ M) as [Hmin _].
    apply matchItems_caps in M; [|rewrite Et; reflexivity].
    rewrite Et in Hmin. cbn [minLength] in Hmin.
    eexists. split; [exact M|]. split; [|exact Hlen].
    unfold captured. rewrite length_firstn, length_skipn. cbn [length]. lia.
Qed.

Section Hits.

Variable re : regex.

(** Every match found by the search is a match of the expression at some
    position. *)
Lemma scan_hits (s : jsstring) :
  forall k pre h,
    In (Hit h) (scan re k pre s) ->
    exists s' n,
      matchAt re s' = Some (n, captures h) /\ matched h = firstn n s'.
Proof.
  induction s as [|c s IH]; intros k pre h H.
  - destruct k; cbn [scan] in H; [|contradiction].
    destruct (matchAt re []) as [[n caps]|] eqn:M; [|contradiction].
    destruct H as [H|[]]. injection H as <-.
    exists [], n. split; [exact M | now rewrite firstn_nil].
  - destruct k as [|k]; cbn [scan] in H; [|now apply IH in H].
    destruct (matchAt re (c :: s)) as [[n caps]|] eqn:M.
    + destruct H as [H|H].
      * injection H as <-. exists (c :: s), n. now split.
      * destruct n; [destruct H as [H|H]; [discriminate|]|]; now apply IH in H.
    + destruct H as [H|H]; [discriminate | now apply IH in H].
Qed.

(** Where the expression matches somewhere, the search finds a match. *)
Lemma test_hit (s pre : jsstring) :
  test re s = true -> exists h, In (Hit h) (scan re 0 pre s).
Proof.
  revert pre. induction s as [|c s IH]; intros pre H; cbn [test scan] in *.
  - destruct (matchAt re []) as [[n caps]|]; [|discriminate].
    eexists. now left.
  - destruct (matchAt re (c :: s)) as [[n caps]|].
    + eexists. now left.
    + destruct (IH (pre ++ [c]) H) as [h Hh]. exists h. now right.
Qed.

End Hits.

(** Replacers that never lengthen a match do not lengthen the text, and
    shorten it when they shorten one match. *)
Lemma render_le (g : hit -> jsstring) (l : list segment) :
  (forall h, In (Hit h) l -> length (g h) <= length (matched h)) ->
  length (flat_map (render g) l) <= length (flat_map (render matched) l).
Proof.
  induction l as [|seg l IH]; intros H; [reflexivity|].
  cbn [flat_map]. rewrite !length_app.
  assert (length (flat_map (render g) l) <= length (flat_map (render matched) l))
    by (apply IH; intros h Hh; apply H; now right).
  destruct seg as [c|h]; cbn [render]; [lia|].
  assert (length (g h) <= length (matched h)) by (apply H; now left). lia.
Qed.

Lemma render_lt (g : hit -> jsstring) (l : list segment) (h0 : hit) :
  (forall h, In (Hit h) l -> length (g h) <= length (matched h)) ->
  In (Hit h0) l -> length (g h0) < length (matched h0) ->
  length (flat_map (render g) l) < length (flat_map (render matched) l).
Proof.
  induction l as [|seg l IH]; intros H Hin Hlt; [contradiction|].
  cbn [flat_map]. rewrite !length_app.
  assert (Hl : forall h, In (Hit h) l -> length (g h) <= length (matched h))
    by (intros h Hh; apply H; now right).
  pose proof (render_le g l Hl) as Hle.
  destruct Hin as [->|Hin].
  - cbn [render]. lia.
  - specialize (IH Hl Hin Hlt).
    destruct seg as [c|h]; cbn [render]; [lia|].
    assert (length (g h) <= length (matched h)) by (apply H; now left). lia.
Qed.

(** The link replacement shortens every match. *)
Lemma cite_hit_shorter (s pre : jsstring) (k : nat) (h : hit) :
  In (Hit h) (scan re_cite k pre s) ->
  length (getSubstitution h (lit "[$1]")) < length (matched h).
Proof.
  intros H. apply scan_hits in H as (s' & n & M & Hm).
  apply matchAt_cite_inv in M as (cap & Hcap & Hn & Hs).
  rewrite (@getSubstitution_cite h cap Hcap), Hm, length_firstn.
  rewrite !length_app. cbn [lit length list_ascii_of_string map]. lia.
Qed.

Lemma replace_cite_length (m : jsstring) :
  length (replace re_cite (lit "[$1]") m) <= length m /\
  (test re_cite m = true -> length (replace re_cite (lit "[$1]") m) < length m).
Proof.
  unfold replace.
  pose proof (scan_identity re_cite m [] 0) as Hid. cbn [skipn] in Hid.
  split.
  - rewrite <- Hid at 2. apply render_le.
    intros h Hh. apply Nat.lt_le_incl. exact (cite_hit_shorter _ _ _ _ Hh).
  - intros Ht. destruct (test_hit re_cite m [] Ht) as [h Hh].
    rewrite <- Hid at 2. apply render_lt with (h0 := h); [|assumption|].
    + intros h' Hh'. apply Nat.lt_le_incl. exact (cite_hit_shorter _ _ _ _ Hh').
    + exact (cite_hit_shorter _ _ _ _ Hh).
Qed.

(** Where a wrapper holds a link, the text is changed. *)
Lemma sanitizeInlineCitations_cites (s : jsstring) :
  citesInText s = true -> sanitizeInlineCitations s <> s.
Proof.
  intros H E. unfold citesInText in H.
  apply existsb_exists in H as (m & Hin & Ht).
  unfold matchAll in Hin. apply in_flat_map in Hin as (seg & Hseg & Hm).
  destruct seg as [c|h]; [contradiction|]. destruct Hm as [<-|[]].
  assert (L : length (sanitizeInlineCitations s) < length s).
  { unfold sanitizeInlineCitations, replaceWith. rewrite orElse_nil.
    pose proof (scan_identity re_text s [] 0) as Hid. cbn [skipn] in Hid.
    rewrite <- Hid at 2.
    apply render_lt with (h0 := h); [|assumption|].
    - intros h' _. apply replace_cite_length.
    - now apply replace_cite_length. }
  rewrite E in L. lia.
Qed.

(** C2, as the sanitizer has it. On a text without legacy math delimiters
    [normalizeMath] changes nothing, so [sanitize] is
    [sanitizeInlineCitations]; and the text comes back unchanged when, and
    only when, no [\text{...}] wrapper of it holds a link [[integer](url)]. *)
Theorem sanitize_without_legacy (s : jsstring)
  (H : hasLegacyDelimiter s = false) :
  normalizeMath s = s /\
  sanitize s = sanitizeInlineCitations s /\
  (citesInText s = false -> sanitize s = s) /\
  (citesInText s = true -> sanitize s <> s).
Proof.
  pose proof (normalizeMath_without_legacy s H) as E.
  unfold sanitize, USE_MATH_NORMALIZER. rewrite E. parts.
  - reflexivity.
  - reflexivity.
  - apply sanitizeInlineCitations_no_cites.
  - apply sanitizeInlineCitations_cites.
Qed.

Lemma sanitize_without_legacy_witness :
  normalizeMath (lit "plain $x$ and [3](http://x)") = lit "plain $x$ and [3](http://x)" /\
  sanitize (lit "plain $x$ and [3](http://x)")
  = sanitizeInlineCitations (lit "plain $x$ and [3](http://x)") /\
  (citesInText (lit "plain $x$ and [3](http://x)") = false ->
   sanitize (lit "plain $x$ and [3](http://x)") = lit "plain $x$ and [3](http://x)") /\
  (citesInText (lit "plain $x$ and [3](http://x)") = true ->
   sanitize (lit "plain $x$ and [3](http://x)") <> lit "plain $x$ and [3](http://x)").
Proof.
  apply (@sanitize_without_legacy (lit "plain $x$ and [3](http://x)")).
  vm_compute. reflexivity.
Defined.

(** C2 as stated fails: a text without legacy delimiters whose wrapper
    holds a link is changed. *)
Lemma sanitize_changes_cited_text :
  hasLegacyDelimiter (lit "\text{[3](http://x)}") = false /\
  sanitize (lit "\text{[3](http://x)}") = lit "\text{[3]}" /\
  sanitize (lit "\text{[3](http://x)}") <> lit "\text{[3](http://x)}".
Proof. parts; [vm_compute; reflexivity .. | vm_compute; discriminate]. Qed.

(** ** One pass of [normalizeMath] *)

Lemma matchAt_escaped (x : char) (s : jsstring) :
  matchAt (re_escaped x) s
  = match s with
    | c :: d :: _ => if N.eqb c (ch "\") && N.eqb d x then Some (2, []) else None
    | _ => None
    end.
Proof.
  destruct s as [|c [|d s]]; cbn;
    repeat (match goal with
            | |- context [N.eqb ?a ?b] => destruct (N.eqb a b); cbn
            end); reflexivity.
Qed.

(** A global replacement of [\x] whose template expands to a dollar sign is
    one pass of [dollarFor]. *)
Lemma replace_escaped (x : char) (template : jsstring) :
  (forall h, getSubstitution h template = [ch "$"]) ->
  forall s, replace (re_escaped x) template s = dollarFor x s.
Proof.
  intros Ht s. unfold replace. generalize (@nil char) as pre.
  remember (length s) as n eqn:En.
  assert (Hn : length s <= n) by lia. clear En.
  revert s Hn. induction n as [|n IH]; intros s Hn pre.
  - destruct s; [|simpl in Hn; lia].
    cbn [scan]. rewrite matchAt_escaped. reflexivity.
  - destruct s as [|c [|d s]].
    + cbn [scan]. rewrite matchAt_escaped. reflexivity.
    + cbn [scan]. rewrite !matchAt_escaped. reflexivity.
    + cbn [dollarFor].
      destruct (N.eqb c (ch "\") && N.eqb d x) eqn:E.
      * change (c :: d :: s) with ([c; d] ++ s).
        rewrite (@scan_match (re_escaped x) [c; d] s pre []);
          [ | discriminate
            | rewrite matchAt_escaped; cbn [app]; rewrite E; reflexivity ].
        cbn [flat_map render]. rewrite Ht.
        rewrite IH by (simpl in Hn; lia). reflexivity.
      * rewrite scan_keep by (rewrite matchAt_escaped, E; reflexivity).
        cbn [flat_map render].
        rewrite (IH (d :: s)) by (simpl in *; lia). reflexivity.
Qed.

Lemma dollarFor_cons (x c d : char) (s : jsstring) :
  dollarFor x (c :: d :: s)
  = if N.eqb c (ch "\") && N.eqb d x
    then ch "$" :: dollarFor x s
    else c :: dollarFor x (d :: s).
Proof. reflexivity. Qed.

(** A pass starts with what the text starts with, or with a dollar sign. *)
Lemma dollarFor_head (x d : char) (s : jsstring) :
  exists r, dollarFor x (d :: s) = d :: r \/ dollarFor x (d :: s) = ch "$" :: r.
Proof.
  destruct s as [|e s]; cbn [dollarFor].
  - exists []. now left.
  - destruct (N.eqb d (ch "\") && N.eqb e x); eexists; [right | left]; reflexivity.
Qed.

(** After a pass for [x] no [\x] is left, and no [\y] appears that was not
    there before. *)
Lemma dollarFor_clean (x y : char) (s : jsstring) :
  y <> ch "$" ->
  y = x \/ includes s [ch "\"; y] = false ->
  includes (dollarFor x s) [ch "\"; y] = false.
Proof.
  intros Hy.
  remember (length s) as n eqn:En.
  assert (Hn : length s <= n) by lia. clear En.
  revert s Hn. induction n as [|n IH]; intros s Hn H.
  - destruct s; [reflexivity | simpl in Hn; lia].
  - assert (Htail : forall c t, s = c :: t ->
                                y = x \/ includes t [ch "\"; y] = false).
    { intros c t ->. destruct H as [H|H]; [now left | right].
      now apply (includes_suffix [c]). }
    destruct s as [|c [|d s]]; [reflexivity | |].
    + cbn. now rewrite andb_false_r.
    + rewrite dollarFor_cons.
      destruct (N.eqb c (ch "\") && N.eqb d x) eqn:E.
      * cbn [includes startsWith]. cbn.
        apply IH; [simpl in Hn; lia|].
        specialize (Htail c (d :: s) eq_refl).
        destruct Htail as [Ht|Ht]; [now left | right].
        now apply (includes_suffix [d]).
      * cbn [includes]. rewrite (IH (d :: s));
          [ | simpl in *; lia | now apply (Htail c) ].
        rewrite orb_false_r.
        destruct (dollarFor_head x d s) as [r [Hr|Hr]]; rewrite Hr;
          cbn [startsWith].
        -- rewrite andb_true_r.
           destruct (N.eqb c (ch "\")) eqn:Ec; [|reflexivity].
           destruct (N.eqb d y) eqn:Ed; [|reflexivity].
           exfalso. apply N.eqb_eq in Ed. subst d.
           destruct H as [->|H].
           ++ rewrite N.eqb_refl in E. discriminate.
           ++ cbn [includes startsWith] in H.
              rewrite Ec, N.eqb_refl in H. discriminate.
        -- rewrite andb_true_r.
           destruct (N.eqb (ch "$") y) eqn:Ed; [|apply andb_false_r].
           apply N.eqb_eq in Ed. congruence.
Qed.

(** With a legacy delimiter in the text, [normalizeMath] is the four passes. *)
Lemma normalizeMath_passes (s : jsstring) :
  hasLegacyDelimiter s = true ->
  normalizeMath s
  = dollarFor (ch ")") (dollarFor (ch "(") (dollarFor (ch "]") (dollarFor (ch "[") s))).
Proof.
  intros H. unfold normalizeMath. rewrite test_legacy, H.
  destruct s as [|c s]; [discriminate|]. cbn [isEmpty negb].
  change re_inline_close with (re_escaped (ch ")")).
  change re_inline_open with (re_escaped (ch "(")).
  change re_display_close with (re_escaped (ch "]")).
  change re_display_open with (re_escaped (ch "[")).
  now rewrite !replace_escaped by reflexivity.
Qed.

(** No legacy delimiter is left in the result of [normalizeMath]. *)
Lemma normalizeMath_no_legacy (s : jsstring) :
  hasLegacyDelimiter (normalizeMath s) = false.
Proof.
  destruct (hasLegacyDelimiter s) eqn:H.
  - rewrite normalizeMath_passes by assumption.
    unfold hasLegacyDelimiter, legacy_delimiters. cbn [existsb].
    change (lit "\[") with [ch "\"; ch "["]. change (lit "\]") with [ch "\"; ch "]"].
    change (lit "\(") with [ch "\"; ch "("]. change (lit "\)") with [ch "\"; ch ")"].
    rewrite !dollarFor_clean; try reflexivity; try discriminate; auto;
      right; rewrite ?dollarFor_clean; try reflexivity; try discriminate; auto;
      right; rewrite ?dollarFor_clean; try reflexivity; try discriminate; auto;
      right; rewrite ?dollarFor_clean; try reflexivity; try discriminate; auto.
  - now rewrite normalizeMath_without_legacy.
Qed.

(** C1, the code at a display formula. Both display delimiters come out as
    a single dollar sign, since [$$] in a replacement template stands for
    one dollar sign: with a legacy delimiter in the text, [normalizeMath] is
    four passes that each write one dollar sign for their delimiter.  No
    legacy delimiter is left in the result. *)
Theorem normalizeMath_display_single_dollar :
  normalizeMath (lit "\[x\]") = lit "$x$" /\
  normalizeMath (lit "\[x\]") <> lit "$$x$$" /\
  normalizeMath (lit "a \[x\] b \(y\) c") = lit "a $x$ b $y$ c" /\
  (forall s,
      hasLegacyDelimiter s = true ->
      normalizeMath s
      = dollarFor (ch ")")
          (dollarFor (ch "(") (dollarFor (ch "]") (dollarFor (ch "[") s)))) /\
  (forall s, hasLegacyDelimiter (normalizeMath s) = false).
Proof.
  parts.
  - vm_compute. reflexivity.
  - vm_compute. discriminate.
  - vm_compute. reflexivity.
  - apply normalizeMath_passes.
  - apply normalizeMath_no_legacy.
Qed.

(* ================================================================== *)
(** * Further properties of the sanitizer *)
(* ================================================================== *)

(** Induction over a text two characters at a time. *)
Lemma pair_ind (P : jsstring -> Prop) :
  P [] -> (forall c, P [c]) ->
  (forall c d s, P s -> P (d :: s) -> P (c :: d :: s)) ->
  forall s, P s.
Proof.
  intros H0 H1 H2 s.
  assert (H : P s /\ forall c, P (c :: s)); [|exact (proj1 H)].
  induction s as [|d s [IH1 IH2]]; split; auto.
Qed.

Lemma dollarFor_length (x : char) (s : jsstring) :
  length (dollarFor x s) <= length s.
Proof.
  induction s as [|c|c d s IH1 IH2] using pair_ind; [reflexivity..|].
  rewrite dollarFor_cons. destruct (_ && _); cbn [length] in *; lia.
Qed.

(** A pass leaves a text without its delimiter as it is, and shortens a
    text that holds it. *)
Lemma dollarFor_absent (x : char) (s : jsstring) :
  includes s [ch "\"; x] = false -> dollarFor x s = s.
Proof.
  induction s as [|c|c d s IH1 IH2] using pair_ind; [reflexivity..|].
  intros H. rewrite dollarFor_cons.
  cbn [includes startsWith] in H. apply orb_false_iff in H as [H1 H2].
  rewrite andb_true_r in H1. rewrite H1.
  f_equal. now apply IH2.
Qed.

Lemma dollarFor_present (x : char) (s : jsstring) :
  includes s [ch "\"; x] = true -> length (dollarFor x s) < length s.
Proof.
  induction s as [|c|c d s IH1 IH2] using pair_ind.
  - discriminate.
  - cbn. now rewrite andb_false_r.
  - intros H. rewrite dollarFor_cons.
    destruct (N.eqb c (ch "\") && N.eqb d x) eqn:E.
    + pose proof (dollarFor_length x s). cbn [length]. lia.
    + cbn [includes startsWith] in H. rewrite andb_true_r, E in H.
      cbn [orb] in H. specialize (IH2 H). cbn [length] in *. lia.
Qed.

(** X1. [normalizeMath] is idempotent: a second application changes
    nothing. *)
Theorem normalizeMath_idempotent (s : jsstring) :
  normalizeMath (normalizeMath s) = normalizeMath s.
Proof.
  apply normalizeMath_without_legacy, normalizeMath_no_legacy.
Qed.

(** X2. [normalizeMath] never lengthens a text, it shortens every text that
    holds a legacy delimiter, and so it returns its input unchanged exactly
    when the input holds no legacy delimiter. *)
Theorem normalizeMath_length (s : jsstring) :
  length (normalizeMath s) <= length s /\
  (hasLegacyDelimiter s = true -> length (normalizeMath s) < length s) /\
  (normalizeMath s = s <-> hasLegacyDelimiter s = false).
Proof.
  assert (Hlt : hasLegacyDelimiter s = true -> length (normalizeMath s) < length s).
  { intros H. rewrite normalizeMath_passes by assumption.
    unfold hasLegacyDelimiter, legacy_delimiters in H. cbn [existsb] in H.
    change (lit "\[") with [ch "\"; ch "["] in H.
    change (lit "\]") with [ch "\"; ch "]"] in H.
    change (lit "\(") with [ch "\"; ch "("] in H.
    change (lit "\)") with [ch "\"; ch ")"] in H.
    rewrite orb_false_r in H.
    destruct (includes s [ch "\"; ch "["]) eqn:E1.
    { pose proof (dollarFor_present _ _ E1) as L.
      do 3 (eapply Nat.le_lt_trans; [apply dollarFor_length|]). exact L. }
    rewrite (dollarFor_absent _ _ E1).
    destruct (includes s [ch "\"; ch "]"]) eqn:E2.
    { pose proof (dollarFor_present _ _ E2) as L.
      do 2 (eapply Nat.le_lt_trans; [apply dollarFor_length|]). exact L. }
    rewrite (dollarFor_absent _ _ E2).
    destruct (includes s [ch "\"; ch "("]) eqn:E3.
    { pose proof (dollarFor_present _ _ E3) as L.
      do 1 (eapply Nat.le_lt_trans; [apply dollarFor_length|]). exact L. }
    rewrite (dollarFor_absent _ _ E3).
    cbn [orb] in H. now apply dollarFor_present. }
  parts.
  - destruct (hasLegacyDelimiter s) eqn:H.
    + apply Nat.lt_le_incl. now apply Hlt.
    + now rewrite normalizeMath_without_legacy.
  - exact Hlt.
  - split.
    + intros E. destruct (hasLegacyDelimiter s) eqn:H; [|reflexivity].
      specialize (Hlt eq_refl). rewrite E in Hlt. lia.
    + apply normalizeMath_without_legacy.
Qed.

(** X3. [sanitizeInlineCitations] never lengthens a text, and it returns its
    input unchanged exactly when no wrapper of the input holds a link. *)
Theorem sanitizeInlineCitations_length (s : jsstring) :
  length (sanitizeInlineCitations s) <= length s /\
  (sanitizeInlineCitations s = s <-> citesInText s = false).
Proof.
  split.
  - unfold sanitizeInlineCitations, replaceWith. rewrite orElse_nil.
    pose proof (scan_identity re_text s [] 0) as Hid. cbn [skipn] in Hid.
    rewrite <- Hid at 2. apply render_le.
    intros h _. apply replace_cite_length.
  - split.
    + intros E. destruct (citesInText s) eqn:H; [|reflexivity].
      now elim (sanitizeInlineCitations_cites H).
    + apply sanitizeInlineCitations_no_cites.
Qed.

(** ** Legacy delimiters after the whole pipeline *)

Lemma accepts_Chr (c d : char) : accepts (Chr d) c = true -> c = d.
Proof. cbn [accepts]. apply N.eqb_eq. Qed.

(** A match of the link expression is an opening bracket, the capture, a
    closing bracket and some more text. *)
Lemma matchAt_cite_shape (s : jsstring) (n : nat) (caps : list jsstring) :
  matchAt re_cite s = Some (n, caps) ->
  exists cap d rest,
    caps = [cap] /\
    s = ch "[" :: cap ++ ch "]" :: d ++ rest /\
    n = length (ch "[" :: cap ++ ch "]" :: d).
Proof.
  unfold re_cite, matchAt. intros H.
  destruct (matchItems _ None [] s) as [r|] eqn:M; [|discriminate].
  injection H as ->.
  remember [One (Chr (ch "(")); Plus (Class true [CChar (ch ")")]);
            One (Chr (ch ")"))] as tail eqn:Et.
  destruct s as [|c0 [|d0 s2]]; cbn [matchItems] in M; try discriminate.
  { destruct (accepts (Chr (ch "[")) c0); discriminate. }
  destruct (accepts (Chr (ch "[")) c0) eqn:A0; [|discriminate].
  apply accepts_Chr in A0. subst c0.
  apply consume_Some in M as (n1 & -> & M).
  destruct (accepts _ d0); [|discriminate].
  apply consume_Some in M as (n2 & -> & M).
  apply greedy_split in M as (j & Hj & Hjs & M).
  cbn [matchItems] in M.
  destruct (skipn j s2) as [|e s3] eqn:Es; [discriminate|].
  destruct (accepts (Chr (ch "]")) e) eqn:A1; [|discriminate].
  apply accepts_Chr in A1. subst e.
  apply consume_Some in M as (n3 & En & M).
  pose proof (matchItems_bounds _ _ _ _ M) as [_ Hn3].
  apply matchItems_caps in M; [|rewrite Et; reflexivity].
  assert (Es2 : s2 = firstn j s2 ++ ch "]" :: s3)
    by (rewrite <- Es; symmetry; apply firstn_skipn).
  assert (Hl : length s2 = j + S (length s3)).
  { rewrite Es2 at 1. rewrite length_app, length_firstn. cbn [length]. lia. }
  exists (d0 :: firstn j s2), (firstn n3 s3), (skipn n3 s3).
  split; [|split].
  - rewrite M. cbn [app]. f_equal. unfold captured. cbn [length].
    replace (S (length s2) - S (length s3)) with (S j) by lia.
    reflexivity.
  - cbn [app]. rewrite firstn_skipn. now rewrite <- Es2.
  - cbn [length app]. rewrite length_app. cbn [length].
    rewrite !length_firstn. lia.
Qed.

Lemma tab_refl (s : jsstring) : trimmedAfterBrackets s s.
Proof. induction s; constructor; assumption. Qed.

Lemma tab_app (s1 t1 s2 t2 : jsstring) :
  trimmedAfterBrackets s1 t1 -> trimmedAfterBrackets s2 t2 ->
  trimmedAfterBrackets (s1 ++ s2) (t1 ++ t2).
Proof.
  intros H1 H2. induction H1 as [|c s t H IH|d s t H IH]; cbn [app].
  - assumption.
  - now constructor.
  - rewrite <- app_assoc. now constructor.
Qed.

(** What is left starts as the text started. *)
Lemma tab_head (s t : jsstring) (c : char) :
  trimmedAfterBrackets s (c :: t) -> exists s', s = c :: s'.
Proof. intros H. inversion H; subst; eexists; reflexivity. Qed.

(** Leaving out text after closing brackets brings in no backslash pair. *)
Lemma tab_includes (y : char) (s t : jsstring) :
  trimmedAfterBrackets s t ->
  includes s [ch "\"; y] = false -> includes t [ch "\"; y] = false.
Proof.
  intros H. induction H as [|c s t H IH|d s t H IH]; intros Hs.
  - reflexivity.
  - cbn [includes] in *. apply orb_false_iff in Hs as [Hh Hs].
    rewrite (IH Hs), orb_false_r.
    cbn [startsWith] in *. destruct (N.eqb c (ch "\")); [|reflexivity].
    cbn [andb] in *. destruct t as [|e t]; [reflexivity|].
    destruct (tab_head H) as [s' ->]. exact Hh.
  - cbn [includes]. rewrite IH.
    + cbn. reflexivity.
    + change (ch "]" :: d ++ s) with ((ch "]" :: d) ++ s) in Hs.
      now apply includes_suffix in Hs.
Qed.

(** The link replacement leaves out text after closing brackets, and does
    nothing else. *)
Lemma replace_cite_tab (s : jsstring) :
  forall k pre,
    trimmedAfterBrackets (skipn k s)
      (flat_map (render (fun h => getSubstitution h (lit "[$1]")))
         (scan re_cite k pre s)).
Proof.
  induction s as [|c s IH]; intros k pre.
  - destruct k; cbn [scan skipn]; [|constructor].
    destruct (matchAt re_cite []) as [[n caps]|] eqn:M; [|constructor].
    apply matchAt_cite_shape in M as (cap & d & rest & _ & E & _). discriminate.
  - destruct k as [|k]; [|cbn [scan skipn]; apply IH].
    cbn [scan skipn].
    destruct (matchAt re_cite (c :: s)) as [[n caps]|] eqn:M.
    + apply matchAt_cite_shape in M as (cap & d & rest & Hc & E & Hn).
      injection E as -> ->. subst n caps.
      change 93%N with (ch "]") in *. change 91%N with (ch "[") in *.
      cbn [length flat_map render].
      rewrite (@getSubstitution_cite _ cap); [|reflexivity].
      specialize (IH (length (cap ++ ch "]" :: d)) (pre ++ [ch "["])).
      replace (cap ++ ch "]" :: d ++ rest) with ((cap ++ ch "]" :: d) ++ rest) in IH
        by (rewrite <- app_assoc; reflexivity).
      rewrite skipn_app, skipn_all, Nat.sub_diag in IH. cbn [skipn app] in IH.
      replace ((cap ++ ch "]" :: d) ++ rest) with (cap ++ ch "]" :: d ++ rest) in IH
        by (rewrite <- app_assoc; reflexivity).
      change (lit "[" ++ cap ++ lit "]") with (ch "[" :: cap ++ [ch "]"]).
      cbn [app]. constructor. rewrite <- !app_assoc. cbn [app].
      apply tab_app; [apply tab_refl|]. now constructor.
    + cbn [flat_map render app]. constructor. apply (IH 0).
Qed.

(** A replacer that only leaves out text after closing brackets makes a
    global replacement that only does so. *)
Lemma replaceWith_tab (re : regex) (f : jsstring -> jsstring) :
  (forall m, trimmedAfterBrackets m (f m)) ->
  forall s k pre,
    trimmedAfterBrackets (skipn k s)
      (flat_map (render (fun h => f (matched h))) (scan re k pre s)).
Proof.
  intros Hf. induction s as [|c s IH]; intros k pre.
  - destruct k; cbn [scan skipn]; [|constructor].
    destruct (matchAt re []) as [[n caps]|]; [|constructor].
    cbn [flat_map render matched]. rewrite app_nil_r. apply Hf.
  - destruct k as [|k]; [|cbn [scan skipn]; apply IH].
    cbn [scan skipn].
    destruct (matchAt re (c :: s)) as [[[|n] caps]|].
    + cbn [flat_map render matched firstn app].
      pose proof (Hf []) as H0. inversion H0. cbn [app].
      constructor. apply (IH 0).
    + cbn [flat_map render matched].
      rewrite <- (firstn_skipn (S n) (c :: s)) at 1.
      apply tab_app; [apply Hf|]. cbn [skipn]. apply IH.
    + cbn [flat_map render app]. constructor. apply (IH 0).
Qed.

Lemma sanitizeInlineCitations_tab (s : jsstring) :
  trimmedAfterBrackets s (sanitizeInlineCitations s).
Proof.
  unfold sanitizeInlineCitations, replaceWith. rewrite orElse_nil.
  apply (replaceWith_tab re_text (replace re_cite (lit "[$1]"))
           (fun m => replace_cite_tab m 0 []) s 0 []).
Qed.

Lemma sanitizeInlineCitations_keeps_clean (s : jsstring) :
  hasLegacyDelimiter s = false ->
  hasLegacyDelimiter (sanitizeInlineCitations s) = false.
Proof.
  unfold hasLegacyDelimiter, legacy_delimiters. cbn [existsb].
  change (lit "\[") with [ch "\"; ch "["]. change (lit "\]") with [ch "\"; ch "]"].
  change (lit "\(") with [ch "\"; ch "("]. change (lit "\)") with [ch "\"; ch ")"].
  intros H.
  apply orb_false_iff in H as [H1 H]. apply orb_false_iff in H as [H2 H].
  apply orb_false_iff in H as [H3 H]. apply orb_false_iff in H as [H4 _].
  pose proof (sanitizeInlineCitations_tab s) as T.
  now rewrite !(tab_includes _ T).
Qed.

(** X4. The text that the pipeline hands to the renderer holds no legacy
    math delimiter, whatever the raw answer was; and the citation step on
    its own never brings one in. *)
Theorem sanitize_no_legacy :
  (forall raw, hasLegacyDelimiter (sanitize raw) = false) /\
  (forall s, hasLegacyDelimiter s = false ->
             hasLegacyDelimiter (sanitizeInlineCitations s) = false).
Proof.
  split.
  - intros raw. unfold sanitize, USE_MATH_NORMALIZER.
    apply sanitizeInlineCitations_keeps_clean, normalizeMath_no_legacy.
  - apply sanitizeInlineCitations_keeps_clean.
Qed.

(* ================================================================== *)
(** * Further properties of the course coordinator *)
(* ================================================================== *)

Lemma findCourse_head (row : Course) (prev : list Course) :
  findCourse (row :: prev) (id row) = Some row.
Proof. unfold findCourse. cbn [find]. now rewrite eqb_refl. Qed.

Lemma findCourse_In (rows : list Course) (sel : jsstring) :
  findCourse rows sel = None -> ~ In sel (map id rows).
Proof.
  intros H Hin. apply in_map_iff in Hin as (c & Hid & Hin).
  exact (proj1 (findCourse_None rows sel) H c Hin Hid).
Qed.

(** X5. A successful [createCourse] response selects the new course, which
    is then in the list: put in front when its id is new, and the list left
    as it was when the id is already there, so ids that were distinct stay
    distinct; the form is cleared and nothing is sent or alerted. *)
Theorem createCourse_merge (st : PageState) (out : fetched Course) (row : Course)
  (Hrow : succeeded out = Some row) :
  let st' := fst (createCourse_settle out st) in
  courseId st' = id row /\
  (exists c, findCourse (courses st') (id row) = Some c) /\
  ((forall c, In c (courses st) -> id c <> id row) ->
   courses st' = row :: courses st) /\
  ((exists c, In c (courses st) /\ id c = id row) -> courses st' = courses st) /\
  (NoDup (map id (courses st)) -> NoDup (map id (courses st'))) /\
  newName st' = [] /\ newTerm st' = [] /\ creating st' = false /\
  snd (createCourse_settle out st) = [].
Proof.
  unfold succeeded in Hrow. destruct out as [res|e]; [|discriminate].
  destruct (ok res) eqn:Hok; [|discriminate].
  destruct (res_json res) as [row'|e] eqn:Hj; [|discriminate].
  injection Hrow as ->.
  unfold createCourse_settle. rewrite Hok, Hj. cbn [negb].
  destruct st as [q0 cid ans src met ld er lbl uid cs lc cr nn nt].
  act. parts; try reflexivity.
  - destruct (findCourse cs (id row)) as [c|] eqn:E; [now exists c|].
    exists row. apply findCourse_head.
  - intros H. apply findCourse_None in H. now rewrite H.
  - intros (c & Hin & Hid).
    destruct (findCourse cs (id row)) eqn:E; [reflexivity|].
    elim (proj1 (findCourse_None _ _) E c Hin Hid).
  - intros Hnd. destruct (findCourse cs (id row)) eqn:E; [assumption|].
    cbn [map]. constructor; [now apply findCourse_In | assumption].
Qed.

Lemma createCourse_merge_witness :
  let st' := fst (createCourse_settle (success compilers) sample_page) in
  courseId st' = id compilers /\
  (exists c, findCourse (courses st') (id compilers) = Some c) /\
  ((forall c, In c (courses sample_page) -> id c <> id compilers) ->
   courses st' = compilers :: courses sample_page) /\
  ((exists c, In c (courses sample_page) /\ id c = id compilers) ->
   courses st' = courses sample_page) /\
  (NoDup (map id (courses sample_page)) -> NoDup (map id (courses st'))) /\
  newName st' = [] /\ newTerm st' = [] /\ creating st' = false /\
  snd (createCourse_settle (success compilers) sample_page) = [].
Proof.
  apply (@createCourse_merge sample_page (success compilers) compilers).
  reflexivity.
Defined.

(** X6. Handling the same [createCourse] response a second time leaves the
    page as the first handling left it: no course is listed twice. *)
Theorem createCourse_settle_idempotent (out : fetched Course) (st : PageState) :
  fst (createCourse_settle out (fst (createCourse_settle out st)))
  = fst (createCourse_settle out st).
Proof.
  unfold createCourse_settle, createCourse_catch.
  destruct st as [q0 cid ans src met ld er lbl uid cs lc cr nn nt].
  destruct out as [res|e]; [|reflexivity].
  destruct (negb (ok res)); [destruct (res_text res); reflexivity|].
  destruct (res_json res) as [row|e]; [|reflexivity].
  act. destruct (findCourse cs (id row)) as [c|] eqn:E.
  - now rewrite E.
  - now rewrite findCourse_head.
Qed.

(** X7. A failed [createCourse] (the fetch rejects, the response is not ok,
    or its body is not JSON) changes nothing on the page but [creating], and
    raises one alert that starts with "Create failed: "; for a response that
    is not ok the alert carries the body text, or "Error" when the body is
    empty. *)
Theorem createCourse_failure (st : PageState) (out : fetched Course) :
  succeeded out = None ->
  fst (createCourse_settle out st) = fst (setCreating false st) /\
  requests (snd (createCourse_settle out st)) = [] /\
  (exists m, snd (createCourse_settle out st) = [Alert (lit "Create failed: " ++ m)]) /\
  (forall res txt,
      out = Fulfilled res -> ok res = false -> res_text res = Fulfilled txt ->
      snd (createCourse_settle out st)
      = [Alert (lit "Create failed: " ++ (if isEmpty txt then lit "Error" else txt))]).
Proof.
  intros H. unfold succeeded in H. unfold createCourse_settle, createCourse_catch.
  destruct out as [res|e].
  - destruct (ok res) eqn:Hok; cbn [negb].
    + destruct (res_json res) as [row|e]; [discriminate|].
      parts; try reflexivity; [eexists; reflexivity|].
      intros res' txt E. injection E as <-. congruence.
    + destruct (res_text res) as [txt|e] eqn:Ht.
      * parts; try reflexivity; [eexists; reflexivity|].
        intros res' txt' E _ Ht'. injection E as <-.
        rewrite Ht in Ht'. injection Ht' as <-.
        destruct txt; reflexivity.
      * parts; try reflexivity; [eexists; reflexivity|].
        intros res' txt' E _ Ht'. injection E as <-. congruence.
  - parts; try reflexivity; [eexists; reflexivity|]. discriminate.
Qed.

Lemma createCourse_failure_witness :
  fst (createCourse_settle (failure 500 []) sample_page)
  = fst (setCreating false sample_page) /\
  requests (snd (createCourse_settle (failure 500 []) sample_page)) = [] /\
  (exists m, snd (createCourse_settle (failure 500 []) sample_page)
             = [Alert (lit "Create failed: " ++ m)]) /\
  (forall (res : response Course) txt,
      failure 500 [] = Fulfilled res -> ok res = false ->
      res_text res = Fulfilled txt ->
      snd (createCourse_settle (failure 500 []) sample_page)
      = [Alert (lit "Create failed: " ++ (if isEmpty txt then lit "Error" else txt))]).
Proof.
  apply (@createCourse_failure sample_page (failure 500 [])). reflexivity.
Defined.

(** X8. A failed [loadCourses] fails soft: the course list becomes empty,
    [loadingCourses] is cleared and nothing else on the page changes (the
    selection and what is displayed stay); one warning is logged, and there
    is no alert and no request. *)
Theorem loadCourses_failure (cl st : PageState) (out : fetched (list Course)) :
  succeeded out = None ->
  fst (loadCourses_settle cl out st)
  = fst (setLoadingCourses false (fst (setCourses [] st))) /\
  (exists detail, snd (loadCourses_settle cl out st)
                  = [Warn (lit "Failed to load courses:") detail]).
Proof.
  intros H. unfold succeeded in H.
  unfold loadCourses_settle, loadCourses_catch, warnLoadFailed.
  destruct out as [res|e].
  - destruct (ok res); cbn [negb].
    + destruct (res_json res) as [rows|e]; [discriminate|].
      split; [reflexivity | eexists; reflexivity].
    + destruct (res_text res); split; try reflexivity; eexists; reflexivity.
  - split; [reflexivity | eexists; reflexivity].
Qed.

Lemma loadCourses_failure_witness :
  fst (loadCourses_settle sample_page (failure 503 (lit "down")) sample_page)
  = fst (setLoadingCourses false (fst (setCourses [] sample_page))) /\
  (exists detail,
      snd (loadCourses_settle sample_page (failure 503 (lit "down")) sample_page)
      = [Warn (lit "Failed to load courses:") detail]).
Proof.
  apply (@loadCourses_failure sample_page sample_page (failure 503 (lit "down"))).
  reflexivity.
Defined.

(** What a successful course list response leaves on the page. *)
Lemma loadCourses_success (cl st : PageState) (out : fetched (list Course))
      (rows : list Course) :
  succeeded out = Some rows ->
  courses (fst (loadCourses_settle cl out st)) = rows /\
  courseId (fst (loadCourses_settle cl out st))
  = match findCourse rows (courseId cl) with
    | Some _ => courseId st
    | None => match rows with
              | first :: _ => id first
              | [] => courseId st
              end
    end.
Proof.
  intros H. unfold succeeded in H. destruct out as [res|e]; [|discriminate].
  destruct (ok res) eqn:Hok; [|discriminate].
  destruct (res_json res) as [rows'|e] eqn:Hj; [|discriminate].
  injection H as ->.
  unfold loadCourses_settle. rewrite Hok, Hj. cbn [negb].
  destruct (findCourse rows (courseId cl)); [|destruct rows]; split; reflexivity.
Qed.

(** What a successful [createCourse] response leaves in the list and the
    selection. *)
Lemma createCourse_success (st : PageState) (out : fetched Course) (row : Course) :
  succeeded out = Some row ->
  courseId (fst (createCourse_settle out st)) = id row /\
  courses (fst (createCourse_settle out st))
  = match findCourse (courses st) (id row) with
    | Some _ => courses st
    | None => row :: courses st
    end.
Proof.
  intros H. unfold succeeded in H. destruct out as [res|e]; [|discriminate].
  destruct (ok res) eqn:Hok; [|discriminate].
  destruct (res_json res) as [row'|e] eqn:Hj; [|discriminate].
  injection H as ->.
  unfold createCourse_settle. rewrite Hok, Hj. cbn [negb].
  destruct st. split; reflexivity.
Qed.

(** A selection that is in the list is labelled without a request. *)
Lemma hydrateLabel_found (API : jsstring) (st : PageState) (c : Course) :
  findCourse (courses st) (courseId st) = Some c ->
  snd (hydrateLabel_begin API st st) = [] /\
  (courseId st <> [] ->
   courseLabel (fst (hydrateLabel_begin API st st)) = labelFromCourse (Some c)).
Proof.
  intros H. unfold hydrateLabel_begin. rewrite H.
  destruct (isEmpty (courseId st)) eqn:E.
  - split; [reflexivity|]. apply isEmpty_true in E. congruence.
  - split; reflexivity.
Qed.

(** X9. After a successful course list response with at least one course,
    when the selection has not changed since the call, the selection is a
    course of the list, and the label effect that follows resolves it from
    the list without a request. *)
Theorem loadCourses_then_label
  (API : jsstring) (cl st : PageState) (out : fetched (list Course))
  (rows : list Course)
  (Hrows : succeeded out = Some rows) (Hne : rows <> [])
  (Hsame : courseId st = courseId cl) :
  let st' := fst (loadCourses_settle cl out st) in
  (exists c, In c (courses st') /\ id c = courseId st') /\
  snd (hydrateLabel_begin API st' st') = [] /\
  (courseId st' <> [] ->
   exists c, In c rows /\
             courseLabel (fst (hydrateLabel_begin API st' st'))
             = labelFromCourse (Some c)).
Proof.
  cbv zeta.
  destruct (loadCourses_success cl st out Hrows) as [Hc Hid].
  assert (Hfound : exists c, findCourse (courses (fst (loadCourses_settle cl out st)))
                               (courseId (fst (loadCourses_settle cl out st)))
                             = Some c).
  { rewrite Hc, Hid.
    destruct (findCourse rows (courseId cl)) as [c|] eqn:E.
    - exists c. now rewrite Hsame.
    - destruct rows as [|first rest]; [congruence|].
      exists first. apply findCourse_head. }
  destruct Hfound as [c Hfound].
  pose proof (findCourse_Some _ _ Hfound) as [Hin Hidc].
  destruct (hydrateLabel_found API _ Hfound) as [Hreq Hlabel].
  parts.
  - now exists c.
  - exact Hreq.
  - intros Hsel. exists c. split; [now rewrite <- Hc | now apply Hlabel].
Qed.

Lemma loadCourses_then_label_witness :
  let st' := fst (loadCourses_settle stray_page (success [logic; algo]) stray_page) in
  (exists c, In c (courses st') /\ id c = courseId st') /\
  snd (hydrateLabel_begin sample_API st' st') = [] /\
  (courseId st' <> [] ->
   exists c, In c [logic; algo] /\
             courseLabel (fst (hydrateLabel_begin sample_API st' st'))
             = labelFromCourse (Some c)).
Proof.
  apply (@loadCourses_then_label sample_API stray_page stray_page
           (success [logic; algo]) [logic; algo]);
    [reflexivity | discriminate | reflexivity].
Defined.

(** X10. After a successful [createCourse] response the label effect
    resolves the new selection from the list without a request; when the id
    of the course is new and not empty, the label is the one of the course
    that came back. *)
Theorem createCourse_then_label
  (API : jsstring) (st : PageState) (out : fetched Course) (row : Course)
  (Hrow : succeeded out = Some row) :
  let st' := fst (createCourse_settle out st) in
  snd (hydrateLabel_begin API st' st') = [] /\
  (id row <> [] -> (forall c, In c (courses st) -> id c <> id row) ->
   courseLabel (fst (hydrateLabel_begin API st' st')) = labelFromCourse (Some row)).
Proof.
  cbv zeta. destruct (createCourse_success st out Hrow) as [Hid Hc].
  assert (Hfound : exists c, findCourse (courses (fst (createCourse_settle out st)))
                               (courseId (fst (createCourse_settle out st)))
                             = Some c /\
                             (findCourse (courses st) (id row) = None -> c = row)).
  { rewrite Hc, Hid. destruct (findCourse (courses st) (id row)) as [c|] eqn:E.
    - exists c. split; [exact E | discriminate].
    - exists row. split; [apply findCourse_head | reflexivity]. }
  destruct Hfound as (c & Hfound & Hnew).
  destruct (hydrateLabel_found API _ Hfound) as [Hreq Hlabel].
  split; [exact Hreq|].
  intros Hne Hfresh. apply findCourse_None in Hfresh.
  rewrite <- (Hnew Hfresh). apply Hlabel. now rewrite Hid.
Qed.

Lemma createCourse_then_label_witness :
  let st' := fst (createCourse_settle (success compilers) sample_page) in
  snd (hydrateLabel_begin sample_API st' st') = [] /\
  (id compilers <> [] ->
   (forall c, In c (courses sample_page) -> id c <> id compilers) ->
   courseLabel (fst (hydrateLabel_begin sample_API st' st'))
   = labelFromCourse (Some compilers)).
Proof.
  apply (@createCourse_then_label sample_API sample_page (success compilers)
           compilers).
  reflexivity.
Defined.

(** X11. [ask], [createCourse], [loadCourses] and [onUpload] send at most one
    request, and never one without identity: every request they send
    carries the non empty user id in its X-User-Id header. *)
Theorem requests_carry_identity (API : jsstring) (cl st : PageState) :
  (forall r, In r (requests (snd (ask_begin API cl st))) ->
             userId cl <> [] /\ header (lit "X-User-Id") r = Some (userId cl) /\
             requests (snd (ask_begin API cl st)) = [r]) /\
  (forall r, In r (requests (snd (createCourse_begin API cl st))) ->
             userId cl <> [] /\ header (lit "X-User-Id") r = Some (userId cl) /\
             requests (snd (createCourse_begin API cl st)) = [r]) /\
  (forall r, In r (requests (snd (loadCourses_begin API cl st))) ->
             userId cl <> [] /\ header (lit "X-User-Id") r = Some (userId cl) /\
             requests (snd (loadCourses_begin API cl st)) = [r]) /\
  (forall toLowerCase props ucl ust r,
      In r (requests (snd (NotesUploader.onUpload_begin toLowerCase props ucl ust))) ->
      NotesUploader.userId props <> [] /\
      header (lit "X-User-Id") r = Some (NotesUploader.userId props) /\
      requests (snd (NotesUploader.onUpload_begin toLowerCase props ucl ust)) = [r]).
Proof.
  parts.
  - intros r. unfold ask_begin.
    destruct (isEmpty (trim (q cl))); [intros []|].
    destruct (isEmpty (userId cl)) eqn:Eu; [intros []|].
    destruct (isEmpty (courseId cl)); [intros []|].
    intros [<-|[]]. apply isEmpty_false in Eu. repeat split. exact Eu.
  - intros r. unfold createCourse_begin.
    destruct (isEmpty (userId cl)) eqn:Eu; [intros []|].
    destruct (isEmpty (trim (newName cl))); [intros []|].
    intros [<-|[]]. apply isEmpty_false in Eu. repeat split. exact Eu.
  - intros r. unfold loadCourses_begin.
    destruct (isEmpty (userId cl)) eqn:Eu; [intros []|].
    intros [<-|[]]. apply isEmpty_false in Eu. repeat split. exact Eu.
  - intros toLowerCase props ucl ust r. unfold NotesUploader.onUpload_begin.
    destruct (isEmpty (NotesUploader.userId props)) eqn:Eu; [intros []|].
    apply isEmpty_false in Eu.
    destruct (isEmpty (NotesUploader.courseId props)); [intros []|].
    destruct (NotesUploader.file ucl) as [f|]; [|intros []].
    unfold NotesUploader.send.
    destruct (NotesUploader.kind ucl).
    + destruct (negb _); [intros []|].
      destruct (N.ltb _ _); [intros []|].
      intros [<-|[]]. repeat split. exact Eu.
    + intros [<-|[]]. repeat split. exact Eu.
Qed.

(* ================================================================== *)
(** * Further properties of asking *)
(* ================================================================== *)

(** X12. An [ask] that is refused for a missing user id or a missing course
    sets its message and changes nothing else: the answer, sources and
    metadata of an earlier ask stay on display next to the new error. *)
Theorem ask_refused_keeps_display (API : jsstring) (cl st : PageState)
  (Hq : trim (q cl) <> []) (Hmiss : userId cl = [] \/ courseId cl = []) :
  exists m,
    ask_begin API cl st = setErr (Some m) st /\
    m <> [] /\
    answer (fst (ask_begin API cl st)) = answer st /\
    sources (fst (ask_begin API cl st)) = sources st /\
    meta (fst (ask_begin API cl st)) = meta st.
Proof.
  unfold ask_begin. apply isEmpty_false in Hq. rewrite Hq.
  destruct (isEmpty (userId cl)) eqn:Eu.
  - eexists. repeat split. discriminate.
  - destruct (isEmpty (courseId cl)) eqn:Ec.
    + eexists. repeat split. discriminate.
    + apply isEmpty_false in Eu, Ec. tauto.
Qed.

Lemma ask_refused_keeps_display_witness :
  exists m,
    ask_begin sample_API answered_page answered_page = setErr (Some m) answered_page /\
    m <> [] /\
    answer (fst (ask_begin sample_API answered_page answered_page))
    = answer answered_page /\
    sources (fst (ask_begin sample_API answered_page answered_page))
    = sources answered_page /\
    meta (fst (ask_begin sample_API answered_page answered_page))
    = meta answered_page.
Proof.
  apply (@ask_refused_keeps_display sample_API answered_page answered_page);
    [vm_compute; discriminate | left; reflexivity].
Defined.

Example ask_refused_shows_both :
  answer (fst (ask_begin sample_API answered_page answered_page))
  = lit "A heap is a tree." /\
  err (fst (ask_begin sample_API answered_page answered_page))
  = Some (lit "No user id set").
Proof. split; reflexivity. Qed.

Lemma orElse_nonempty (a b : jsstring) : b <> [] -> orElse a b <> [].
Proof. destruct a; cbn; [trivial | discriminate]. Qed.

(** X13. When the response of an [ask] is handled, [loading] is cleared and
    nothing is sent.  A success leaves the error as it was and shows the
    sanitized answer text, which holds no legacy math delimiter, with the
    de-duplicated sources when the response has that list (an empty one
    also) and the plain sources otherwise.  Every other outcome sets a non
    empty error message and leaves answer, sources and metadata as they
    were; for a response that is not ok the message is the body text, or
    "HTTP" and the status when the body is empty or unreadable. *)
Theorem ask_settle_outcome (out : fetched Payload.t) (st : PageState) :
  let st' := fst (ask_settle out st) in
  loading st' = false /\
  snd (ask_settle out st) = [] /\
  (forall data,
      succeeded out = Some data ->
      err st' = err st /\
      answer st' = sanitize (if truthy (Payload.answer data)
                             then text (Payload.answer data) else []) /\
      hasLegacyDelimiter (answer st') = false /\
      sources st' = match Payload.sources_dedup data with
                    | Some l => l
                    | None => match Payload.sources data with
                              | Some l => l
                              | None => []
                              end
                    end) /\
  (succeeded out = None ->
   (exists m, err st' = Some m /\ m <> []) /\
   answer st' = answer st /\ sources st' = sources st /\ meta st' = meta st) /\
  (forall res,
      out = Fulfilled res -> ok res = false ->
      err st' = Some (match res_text res with
                      | Fulfilled (c :: txt) => c :: txt
                      | _ => lit "HTTP " ++ ofN (status res)
                      end)).
Proof.
  cbv zeta. unfold ask_settle, ask_catch, succeeded.
  destruct st as [q0 cid ans src met ld er lbl uid cs lc cr nn nt].
  destruct out as [res|e].
  - destruct (ok res) eqn:Hok; cbn [negb].
    + destruct (res_json res) as [data|e].
      * parts; [reflexivity | reflexivity | | discriminate | ].
        -- intros data' H. injection H as <-. parts; try reflexivity.
           act. unfold USE_MATH_NORMALIZER.
           apply sanitizeInlineCitations_keeps_clean, normalizeMath_no_legacy.
        -- intros res' E. injection E as <-. congruence.
      * parts; [reflexivity | reflexivity | discriminate | | ].
        -- intros _. split; [|repeat split].
           eexists. split; [reflexivity|]. now apply orElse_nonempty.
        -- intros res' E. injection E as <-. congruence.
    + parts; [reflexivity | reflexivity | discriminate | | ].
      * intros _. split; [|repeat split].
        eexists. split; [reflexivity|]. act.
        destruct (res_text res) as [[|c txt]|e0]; discriminate.
      * intros res' E _. injection E as <-. act.
        destruct (res_text res) as [[|c txt]|e0]; reflexivity.
  - parts; [reflexivity | reflexivity | discriminate | | discriminate].
    intros _. split; [|repeat split].
    eexists. split; [reflexivity|]. now apply orElse_nonempty.
Qed.

(** ** Runs of asks *)

Lemma ask_settle_calm (out : fetched Payload.t) (st : PageState) :
  shown st = ([], [], JNull, None) -> answerOrError (fst (ask_settle out st)).
Proof.
  destruct st as [q0 cid ans src met ld er lbl uid cs lc cr nn nt].
  unfold shown. cbn [answer sources meta err].
  intros H. injection H as -> -> -> ->.
  unfold answerOrError, ask_settle, ask_catch.
  destruct out as [res|e]; [|act; right; repeat split].
  destruct (negb (ok res)); [act; right; repeat split|].
  destruct (res_json res); act; [left; reflexivity | right; repeat split].
Qed.

Lemma ask_settle_ids (out : fetched Payload.t) (st : PageState) :
  userId (fst (ask_settle out st)) = userId st /\
  courseId (fst (ask_settle out st)) = courseId st.
Proof.
  destruct st. unfold ask_settle, ask_catch.
  destruct out as [res|e]; [|split; reflexivity].
  destruct (negb (ok res)); [split; reflexivity|].
  destruct (res_json res); split; reflexivity.
Qed.

Lemma step_calm (API : jsstring) (e : event) (w w1 : world) :
  userId (chat w) <> [] -> courseId (chat w) <> [] ->
  (e = AskCalled -> pending w = []) ->
  calm w -> step API e w = Some w1 ->
  calm w1 /\ userId (chat w1) = userId (chat w)
  /\ courseId (chat w1) = courseId (chat w).
Proof.
  intros Hu Hc Hask Hcalm Hstep.
  destruct w as [st pend]. cbn [chat pending] in *.
  destruct e as [txt| |i out]; cbn [step chat pending] in Hstep.
  - injection Hstep as <-. cbn [chat pending]. destruct st.
    split; [exact Hcalm | split; reflexivity].
  - rewrite (Hask eq_refl) in *. cbn [app] in Hstep.
    unfold ask_begin in Hstep.
    apply isEmpty_false in Hu, Hc. rewrite Hu, Hc in Hstep.
    destruct (isEmpty (trim (q st))).
    + injection Hstep as <-. split; [exact Hcalm | split; reflexivity].
    + destruct st. injection Hstep as <-.
      split; [reflexivity | split; reflexivity].
  - unfold calm in Hcalm. cbn [pending chat] in Hcalm.
    destruct pend as [|r [|r' pend]]; [destruct i; discriminate | | contradiction].
    destruct i as [|[|i]]; cbn [nth_error] in Hstep; try discriminate.
    injection Hstep as <-. cbn [chat pending].
    split; [|apply ask_settle_ids].
    unfold calm, without. cbn. now apply ask_settle_calm.
Qed.

(** X14. Along every run of question edits, asks and responses in which no
    [ask] starts while a request is in flight, with a user and a course
    set, the page never shows an answer next to an error, and while a
    request is in flight it shows nothing of an earlier ask. *)
Theorem nonOverlapping_calm (API : jsstring) (es : list event) :
  forall w w',
    userId (chat w) <> [] -> courseId (chat w) <> [] -> calm w ->
    nonOverlapping API es w = true ->
    run API es w = Some w' ->
    calm w'.
Proof.
  induction es as [|e es IH]; intros w w' Hu Hc Hcalm Hno Hrun.
  - cbn in Hrun. now injection Hrun as <-.
  - cbn [run nonOverlapping] in *.
    destruct (step API e w) as [w1|] eqn:Hstep; [|discriminate].
    apply andb_true_iff in Hno as [Hask Hno].
    destruct (@step_calm API e w w1 Hu Hc) as (Hcalm1 & Hu1 & Hc1); auto.
    { intros ->. destruct (pending w); [reflexivity | discriminate]. }
    apply (IH w1 w'); auto; congruence.
Qed.

Lemma nonOverlapping_calm_witness : calm after_two_asks.
Proof.
  apply (@nonOverlapping_calm sample_API two_asks sample_world after_two_asks).
  - discriminate.
  - discriminate.
  - left. reflexivity.
  - vm_compute. reflexivity.
  - vm_compute. reflexivity.
Defined.

(** X15. Along every run, overlapping asks included, the page is not
    [loading] when no request is in flight. *)
Theorem run_idle (API : jsstring) (es : list event) :
  forall w w', idle w -> run API es w = Some w' -> idle w'.
Proof.
  induction es as [|e es IH]; intros w w' Hidle Hrun.
  - cbn in Hrun. now injection Hrun as <-.
  - cbn [run] in Hrun.
    destruct (step API e w) as [w1|] eqn:Hstep; [|discriminate].
    apply (IH w1 w'); [|exact Hrun].
    destruct w as [st pend]. unfold idle in *. cbn [chat pending] in *.
    destruct e as [txt| |i out]; cbn [step chat pending] in Hstep.
    + injection Hstep as <-. cbn [chat pending]. destruct st. exact Hidle.
    + unfold ask_begin in Hstep.
      destruct (isEmpty (trim (q st))).
      { injection Hstep as <-. cbn [chat pending requests flat_map].
        now rewrite app_nil_r. }
      destruct (isEmpty (userId st)).
      { injection Hstep as <-. cbn [chat pending]. destruct st.
        cbn. now rewrite app_nil_r. }
      destruct (isEmpty (courseId st)).
      { injection Hstep as <-. cbn [chat pending]. destruct st.
        cbn. now rewrite app_nil_r. }
      destruct st. injection Hstep as <-. cbn [chat pending].
      intros H. apply app_eq_nil in H as [_ H]. discriminate.
    + destruct (nth_error pend i); [|discriminate].
      injection Hstep as <-. cbn [chat pending]. intros _.
      destruct st. unfold ask_settle, ask_catch.
      destruct out as [res|e]; [|reflexivity].
      destruct (negb (ok res)); [reflexivity|].
      destruct (res_json res); reflexivity.
Qed.

Lemma run_idle_witness : idle after_two_asks.
Proof.
  apply (@run_idle sample_API two_asks sample_world after_two_asks).
  - intros _. reflexivity.
  - vm_compute. reflexivity.
Defined.

(* ================================================================== *)
(** * Further properties of the uploader *)
(* ================================================================== *)

Section UploadMore.

Import NotesUploader.

Variable toLowerCase : jsstring -> jsstring.
Variable props : Props.

(** X16. Every call of [onUpload] clears the previous success message and
    leaves the chosen file and kind as they are; then either it sets no
    error, sets [uploading] and sends one request for the chosen file, or it
    sets an error message, sends nothing and leaves [uploading] as it was. *)
Theorem onUpload_begin_exclusive (cl st : State) :
  let r := onUpload_begin toLowerCase props cl st in
  msg (fst r) = None /\ file (fst r) = file st /\ kind (fst r) = kind st /\
  ((err (fst r) = None /\ uploading (fst r) = true /\
    exists f req, file cl = Some f /\ snd r = [Fetch req])
   \/ (exists m, err (fst r) = Some m /\ m <> [] /\ snd r = [] /\
                 uploading (fst r) = uploading st)).
Proof.
  cbv zeta. unfold onUpload_begin. destruct st as [o k f u m e].
  destruct (isEmpty (userId props)).
  { act. parts; try reflexivity. right. eexists. repeat split. discriminate. }
  destruct (isEmpty (courseId props)).
  { act. parts; try reflexivity. right. eexists. repeat split. discriminate. }
  destruct (file cl) as [f0|].
  2:{ act. parts; try reflexivity. right. eexists. repeat split. discriminate. }
  destruct (kind cl) eqn:Ek.
  - destruct (negb _).
    { act. parts; try reflexivity. right. eexists. repeat split. discriminate. }
    destruct (N.ltb _ _).
    { act. parts; try reflexivity. right. eexists. repeat split. discriminate. }
    unfold send. rewrite Ek. act. parts; try reflexivity.
    left. repeat split. now exists f0; eexists.
  - unfold send. rewrite Ek. act. parts; try reflexivity.
    left. repeat split. now exists f0; eexists.
Qed.

(** X17. When the response of an upload is handled, [uploading] is cleared.
    An upload that went through shows the confirmation of the kind the
    upload was started with and forgets the file; every other outcome sets a
    non empty error message and keeps the file and the success message as
    they were. *)
Theorem onUpload_settle_outcome (cl st : State) (out : fetched unit) :
  let st' := fst (onUpload_settle cl out st) in
  uploading st' = false /\
  snd (onUpload_settle cl out st) = [] /\
  (uploaded out = true ->
   msg st' = Some (match kind cl with
                   | pdf => lit "PDF ingested " ++ [check_mark]
                   | image => lit "Image ingested " ++ [check_mark]
                   end) /\
   file st' = None /\ err st' = err st) /\
  (uploaded out = false ->
   (exists m, err st' = Some m /\ m <> []) /\
   file st' = file st /\ msg st' = msg st).
Proof.
  cbv zeta. unfold onUpload_settle, onUpload_catch, uploaded.
  destruct st as [o k f u m e].
  destruct out as [res|e0].
  - destruct (res_text res) as [txt|e1].
    + destruct (ok res); cbn [negb].
      * parts; try reflexivity; [|discriminate]. intros _. repeat split.
      * parts; try reflexivity; [discriminate|]. intros _. split; [|repeat split].
        eexists. split; [reflexivity|]. apply orElse_nonempty.
        destruct txt; discriminate.
    + parts; try reflexivity; [discriminate|]. intros _. split; [|repeat split].
      eexists. split; [reflexivity|]. now apply orElse_nonempty.
  - parts; try reflexivity; [discriminate|]. intros _. split; [|repeat split].
    eexists. split; [reflexivity|]. now apply orElse_nonempty.
Qed.

(** X18. A file chosen under one kind is never uploaded under the other:
    after a click on a kind chip, and also after a file dialog that was
    closed without a file, [onUpload] asks for a file and sends nothing. *)
Theorem onUpload_after_choosing (k : upload_kind) (st : State)
  (Hu : userId props <> []) (Hc : courseId props <> []) :
  let chosen := fst (chooseKind k st) in
  let closed := fst (onPick [] st) in
  file chosen = None /\ kind chosen = k /\
  err (fst (onUpload_begin toLowerCase props chosen chosen))
  = Some (lit "Choose a file to upload.") /\
  snd (onUpload_begin toLowerCase props chosen chosen) = [] /\
  err (fst (onUpload_begin toLowerCase props closed closed))
  = Some (lit "Choose a file to upload.") /\
  snd (onUpload_begin toLowerCase props closed closed) = [].
Proof.
  cbv zeta. unfold onUpload_begin.
  apply isEmpty_false in Hu, Hc. rewrite Hu, Hc.
  destruct st as [o k0 f u m e]. repeat split.
Qed.

End UploadMore.

Lemma onUpload_after_choosing_witness :
  let chosen := fst (chooseKind NotesUploader.image sample_uploader) in
  let closed := fst (onPick [] sample_uploader) in
  NotesUploader.file chosen = None /\ NotesUploader.kind chosen = NotesUploader.image /\
  NotesUploader.err
    (fst (NotesUploader.onUpload_begin NotesUploader.asciiLowerCase sample_props
            chosen chosen))
  = Some (lit "Choose a file to upload.") /\
  snd (NotesUploader.onUpload_begin NotesUploader.asciiLowerCase sample_props
         chosen chosen) = [] /\
  NotesUploader.err
    (fst (NotesUploader.onUpload_begin NotesUploader.asciiLowerCase sample_props
            closed closed))
  = Some (lit "Choose a file to upload.") /\
  snd (NotesUploader.onUpload_begin NotesUploader.asciiLowerCase sample_props
         closed closed) = [].
Proof.
  apply (@onUpload_after_choosing NotesUploader.asciiLowerCase sample_props
           NotesUploader.image sample_uploader); discriminate.
Defined.

(* ================================================================== *)
(** * Properties of the session identity *)
(* ================================================================== *)

Lemma session_step_locked (e : Session.event) (st : Session.State) :
  (Session.lockedByAuth st = true -> Session.userId st <> []) ->
  Session.lockedByAuth (Session.step e st) = true ->
  Session.userId (Session.step e st) <> [].
Proof.
  intros Hinv.
  destruct e as [mounted uid|uid|value]; cbn [Session.step].
  - unfold Session.onSession.
    destruct (mounted && truthy uid) eqn:E; [|exact Hinv].
    apply andb_true_iff in E as [_ E]. intros _.
    destruct uid as [| |[|c s]]; try discriminate E. discriminate.
  - unfold Session.onAuthStateChange.
    destruct (truthy uid) eqn:E; [|discriminate]. intros _.
    destruct uid as [| |[|c s]]; try discriminate E. discriminate.
  - unfold Session.onUserIdInput.
    destruct (Session.lockedByAuth st) eqn:L.
    + rewrite L. exact Hinv.
    + cbn. discriminate.
Qed.

(** X19. While the identity is locked by an auth session it is not empty:
    this holds after every sequence of session reads, auth changes and
    typing.  And the end of a session unlocks the identity without
    resetting it: the user id of the session stays in place. *)
Theorem session_identity (es : list Session.event) (st : Session.State)
  (Hinv : Session.lockedByAuth st = true -> Session.userId st <> []) :
  (Session.lockedByAuth (Session.run es st) = true ->
   Session.userId (Session.run es st) <> []) /\
  (forall uid,
      truthy uid = false ->
      Session.userId (Session.run (es ++ [Session.AuthChanged uid]) st)
      = Session.userId (Session.run es st) /\
      Session.lockedByAuth (Session.run (es ++ [Session.AuthChanged uid]) st)
      = false).
Proof.
  split.
  - revert st Hinv. unfold Session.run.
    induction es as [|e es IH]; intros st Hinv; [exact Hinv|].
    cbn [fold_left]. apply IH. now apply session_step_locked.
  - intros uid Hu. unfold Session.run. rewrite fold_left_app.
    cbn [fold_left Session.step]. unfold Session.onAuthStateChange.
    rewrite Hu. split; reflexivity.
Qed.

Lemma session_identity_witness :
  (Session.lockedByAuth (Session.run session_events manual_identity) = true ->
   Session.userId (Session.run session_events manual_identity) <> []) /\
  (forall uid,
      truthy uid = false ->
      Session.userId
        (Session.run (session_events ++ [Session.AuthChanged uid]) manual_identity)
      = Session.userId (Session.run session_events manual_identity) /\
      Session.lockedByAuth
        (Session.run (session_events ++ [Session.AuthChanged uid]) manual_identity)
      = false).
Proof.
  apply (@session_identity session_events manual_identity). discriminate.
Defined.

Example session_end_keeps_uid :
  Session.run session_events manual_identity
  = {| Session.userId := lit "uid-1"; Session.lockedByAuth := false |}.
Proof. reflexivity. Qed.

(* ================================================================== *)
(** * Properties of the sign-in page *)
(* ================================================================== *)



(* ================================================================== *)
(** * Properties of the page at start up *)
(* ================================================================== *)



(* ================================================================== *)
(** * Plain answers *)
(* ================================================================== *)

Lemma includes_backslash (s p : jsstring) :
  occurs (ch "\") s = false -> includes s (ch "\" :: p) = false.
Proof.
  induction s as [|c s IH]; intros H.
  - reflexivity.
  - unfold occurs in H. cbn [existsb] in H.
    apply orb_false_iff in H as [Hc Hs].
    cbn [includes startsWith]. rewrite (IH Hs), N.eqb_sym, Hc. reflexivity.
Qed.

(** X23. An answer without a backslash goes through the whole pipeline as
    it is, whatever brackets, dollar signs and links it holds. *)
Theorem sanitize_plain (s : jsstring) (H : occurs (ch "\") s = false) :
  sanitize s = s.
Proof.
  unfold sanitize, USE_MATH_NORMALIZER.
  rewrite normalizeMath_without_legacy.
  - apply sanitizeInlineCitations_no_wrapper.
    now apply (@includes_backslash s (lit "text{")).
  - unfold hasLegacyDelimiter, legacy_delimiters. cbn [existsb].
    change (lit "\[") with (ch "\" :: [ch "["]).
    change (lit "\]") with (ch "\" :: [ch "]"]).
    change (lit "\(") with (ch "\" :: [ch "("]).
    change (lit "\)") with (ch "\" :: [ch ")"]).
    now rewrite !includes_backslash.
Qed.

Lemma sanitize_plain_witness :
  sanitize (lit "Cost is $5 (see [3](http://x)) and {a}[b]")
  = lit "Cost is $5 (see [3](http://x)) and {a}[b]".
Proof.
  apply (@sanitize_plain (lit "Cost is $5 (see [3](http://x)) and {a}[b]")).
  vm_compute. reflexivity.
Defined.
